(** * Hotel room reservation front end: session layer

    A shallow embedding of the React component [App] (App.tsx) and of the
    service wrapper [api] (services/api.ts), with the properties of the
    session layer proved over it. *)

From Stdlib Require Import Ascii String.
From stdpp Require Import base numbers list strings gmap fin_maps.
From stdpp Require Import sorting pretty.

Open Scope Z_scope.

(** ** Values of the JavaScript run time *)

(** A value decoded by [response.json()].  [any]-typed bodies are kept in
    this untyped form; bodies with a declared interface are records below. *)
#[warnings="-register-all"]
Inductive JsValue (number : Type) : Type :=
  | JsNull
  | JsBool (b : bool)
  | JsNumber (n : number)
  | JsString (s : string)
  | JsArray (elements : list (JsValue number))
  | JsObject (properties : list (string * JsValue number)).

Arguments JsNull {number}.
Arguments JsBool {number} b.
Arguments JsNumber {number} n.
Arguments JsString {number} s.
Arguments JsArray {number} elements.
Arguments JsObject {number} properties.

(** What the program leaves to the engine: the Number type (binary64) with
    its conversions, the string conversion of arrays and objects, and the
    text of the TypeError raised by a property read on [null]. *)
Class JsEngine := {
  number : Type;
  Number_toString : number → string;
  Number_ToBoolean : number → bool;
  Object_toString : JsValue number → string;
  TypeError_null_property : string → string;
}.

(** ** Interfaces (services/api.ts, App.tsx) *)

Inductive RoomStatus := available | booked.

Global Instance RoomStatus_eq_dec : EqDecision RoomStatus.
Proof. solve_decision. Defined.

(** [Room] of api.ts and [RoomData] of App.tsx are the same interface.
    [guest_id?: string | null]: [None] is an absent field, [Some None] is
    [null]. *)
Record RoomData := {
  room_number : Z;
  floor : Z;
  position : Z;
  status : RoomStatus;
  guest_id : option (option string);
}.

Global Instance RoomData_eq_dec : EqDecision RoomData.
Proof. solve_decision. Defined.

(** ** RoomRegistry: [initializeRooms] and [getRoomsForFloor] *)

(** [roomsMap[roomNumber] = {...}] for one position of one floor. *)
Definition put_room (fl pos roomNumber : Z) (roomsMap : gmap Z RoomData)
  : gmap Z RoomData :=
  <[roomNumber := {| room_number := roomNumber; floor := fl; position := pos;
                     status := available; guest_id := None |}]> roomsMap.

(** The local [roomsMap] of [initializeRooms] once both loops have run:
    [for floor = 1..9, for pos = 0..9], then [for pos = 0..6] on floor 10. *)
Definition roomsMap : gmap Z RoomData :=
  let floors_1_9 :=
    foldl (λ m fl,
             foldl (λ m pos, put_room fl pos (fl * 100 + (pos + 1)) m)
                   m (seqZ 0 10))
          ∅ (seqZ 1 9) in
  foldl (λ m pos, put_room 10 pos (1000 + (pos + 1)) m) floors_1_9 (seqZ 0 7).

(** [Object.values(rooms)]: room numbers are integer index keys, which an
    object enumerates in ascending numeric order. *)
Definition key_le (p q : Z * RoomData) : Prop := p.1 ≤ q.1.

Global Instance key_le_dec : RelDecision key_le.
Proof. intros p q. unfold key_le. apply _. Defined.

Definition Object_values (rooms : gmap Z RoomData) : list RoomData :=
  (merge_sort key_le (map_to_list rooms)).*2.

(** [Array.prototype.sort(compare)]: a stable sort; [x] goes before the
    first later element [y] with [compare x y <= 0]. *)
Fixpoint sort_insert {A} (compare : A → A → Z) (x : A) (l : list A)
  : list A :=
  match l with
  | [] => [x]
  | y :: l' =>
      if decide (compare x y ≤ 0) then x :: y :: l'
      else y :: sort_insert compare x l'
  end.

Definition Array_sort {A} (compare : A → A → Z) (l : list A) : list A :=
  foldr (sort_insert compare) [] l.

(** [getRoomsForFloor]:
    [Object.values(rooms).filter(room => room.floor === floor)
       .sort((a, b) => a.position - b.position)]. *)
Definition getRoomsForFloor (rooms : gmap Z RoomData) (fl : Z)
  : list RoomData :=
  Array_sort (λ a b, position a - position b)
    (filter (λ room, floor room = fl) (Object_values rooms)).

Module RoomPathInfo.
(** Modelled from the spec: the interface [RoomPathInfo] that App.tsx
    imports from services/api.ts is not declared in the api.ts at hand;
    its fields are those of RoomPath in the data model of the spec. *)
Record t `{JsEngine} := {
  room_number : Z;
  floor : Z;
  position : Z;
  total_time : number;
  steps : list string;
}.
End RoomPathInfo.

Module RoomStateResponse.
Record t := {
  rooms : gmap Z RoomData;
  total_rooms : Z;
  available_rooms : Z;
  booked_rooms : Z;
}.
End RoomStateResponse.

Module BookingResponse.
(** [total_travel_time?: number]: [None] is an absent field. *)
Record t `{JsEngine} := {
  success : bool;
  message : string;
  booked_rooms : list Z;
  total_travel_time : option number;
  (** Modelled from the spec: the optional field [room_paths], which
      [handleBook] reads, is not declared in the api.ts at hand. *)
  room_paths : option (list RoomPathInfo.t);
}.
End BookingResponse.

Module MessageResponse.
Record t := {
  success : bool;
  message : string;
}.
End MessageResponse.

(** [new Error(message)].  Every value this program throws or receives as a
    rejection is an [Error] instance, so [error instanceof Error] holds at
    each catch clause. *)
Module Error.
Record t := new { message : string }.
End Error.

(** ** Conversions of the language *)

Definition char_code (c : ascii) : Z := Z.of_N (N_of_ascii c).

(** StrWhiteSpaceChar, for code units below 256: TAB, LF, VT, FF, CR, SP and
    NBSP. *)
Definition is_StrWhiteSpaceChar (c : ascii) : bool :=
  let n := char_code c in
  ((9 <=? n) && (n <=? 13)) || (n =? 32) || (n =? 160).

Fixpoint trim_start (s : string) : string :=
  match s with
  | String c s' => if is_StrWhiteSpaceChar c then trim_start s' else s
  | EmptyString => EmptyString
  end.

(** Value of a digit [0-9a-zA-Z]. *)
Definition digit_value (c : ascii) : option Z :=
  let n := char_code c in
  if (48 <=? n) && (n <=? 57) then Some (n - 48)
  else if (97 <=? n) && (n <=? 122) then Some (n - 97 + 10)
  else if (65 <=? n) && (n <=? 90) then Some (n - 65 + 10)
  else None.

(** The longest prefix of radix-[R] digits, as a mathematical integer;
    [acc] is [None] while no digit has been read. *)
Fixpoint digits_prefix (R : Z) (s : string) (acc : option Z) : option Z :=
  match s with
  | String c s' =>
      match digit_value c with
      | Some d =>
          if d <? R then digits_prefix R s' (Some (default 0 acc * R + d))
          else acc
      | None => acc
      end
  | EmptyString => acc
  end.

(** [parseInt(string)] with no radix argument; [None] is NaN.  The result is
    the mathematical integer: its rounding to a Number preserves the
    comparisons with 1 and 5, and is exact on [1..5]. *)
Definition parseInt (input : string) : option Z :=
  let trimmed := trim_start input in
  let '(sign, unsigned) :=
    match trimmed with
    | String "-" rest => (-1, rest)
    | String "+" rest => (1, rest)
    | _ => (1, trimmed)
    end in
  let '(R, digits) :=
    match unsigned with
    | String "0" (String "x" rest) => (16, rest)
    | String "0" (String "X" rest) => (16, rest)
    | _ => (10, unsigned)
    end in
  match digits_prefix R digits None with
  | None => None
  | Some mathInt => Some (sign * mathInt)
  end.

Section Conversions.
Context `{JsEngine}.

(** [value.key] on a decoded value other than [null]; [None] is
    [undefined].  An object lists each of its keys once; arrays and
    primitives have no property named by the keys this program reads. *)
Definition get_property (value : JsValue number) (key : string)
  : option (JsValue number) :=
  match value with
  | JsObject properties =>
      (λ p : nat * (string * JsValue number), p.2.2)
        <$> list_find (λ p, p.1 = key) properties
  | _ => None
  end.

(** ToBoolean of a decoded value. *)
Definition ToBoolean (value : JsValue number) : bool :=
  match value with
  | JsNull => false
  | JsBool b => b
  | JsNumber n => Number_ToBoolean n
  | JsString s => negb (bool_decide (s = ""%string))
  | JsArray _ => true
  | JsObject _ => true
  end.

(** ToString of a decoded value. *)
Definition ToString (value : JsValue number) : string :=
  match value with
  | JsNull => "null"
  | JsBool true => "true"
  | JsBool false => "false"
  | JsNumber n => Number_toString n
  | JsString s => s
  | JsArray _ => Object_toString value
  | JsObject _ => Object_toString value
  end.

(** A template literal hole [${x}] for [x?: number]. *)
Definition ToString_optional (x : option number) : string :=
  match x with
  | Some n => Number_toString n
  | None => "undefined"
  end.

(** [error.detail || fallback] as the message of a [new Error(...)]: the
    left operand, converted to a string, when it is truthy; the fallback
    when it is [undefined] or another falsy value. *)
Definition detail_or (error : JsValue number) (fallback : string) : string :=
  match get_property error "detail" with
  | Some detail => if ToBoolean detail then ToString detail else fallback
  | None => fallback
  end.
End Conversions.

(** ** The network *)

(** The four requests [api] sends with [fetch]. *)
Inductive Request :=
  | GET_rooms
  | POST_book (num_rooms : Z) (guest_id : option string)
  | POST_reset
  | POST_random_occupancy (occupancy_percentage : Z).

(** Outcome of [response.json()]: it rejects with a SyntaxError, or resolves
    to the decoded body. *)
Inductive Json (A : Type) :=
  | SyntaxError (message : string)
  | Decoded (value : A).

Arguments SyntaxError {A} message.
Arguments Decoded {A} value.

(** A response.  When [response.ok] the body is read at the interface [A]
    the wrapper declares; otherwise it is an [any]. *)
Inductive Response `{JsEngine} (A : Type) :=
  | Response_ok (body : Json A)
  | Response_not_ok (body : Json (JsValue number)).

Arguments Response_ok {_ A} body.
Arguments Response_not_ok {_ A} body.

Definition ok `{JsEngine} {A} (response : Response A) : bool :=
  match response with
  | Response_ok _ => true
  | Response_not_ok _ => false
  end.

(** Outcome of [fetch]: it rejects (no response received), or resolves to a
    response. *)
Inductive Fetched `{JsEngine} (A : Type) :=
  | NetworkError (message : string)
  | Responded (response : Response A).

Arguments NetworkError {_ A} message.
Arguments Responded {_ A} response.

(** What the service does with one request: the time the awaits of the
    call take, and the outcome. *)
Record Reply `{JsEngine} (A : Type) := {
  latency : N;
  outcome : Fetched A;
}.

Arguments latency {_ A} _.
Arguments outcome {_ A} _.

(** The service during one action; an action sends each request at most
    once. *)
Record Server `{JsEngine} := {
  rooms_reply : Reply RoomStateResponse.t;
  book_reply : Z → option string → Reply BookingResponse.t;
  reset_reply : Reply MessageResponse.t;
  random_occupancy_reply : Z → Reply MessageResponse.t;
}.

(** ** The component state and its effects *)

Inductive MessageType := success | error.

Global Instance MessageType_eq_dec : EqDecision MessageType.
Proof. solve_decision. Defined.

Module Statistics.
Record t := {
  total_rooms : Z;
  available_rooms : Z;
  booked_rooms : Z;
}.
End Statistics.

(** The [useState] cells of [App]. *)
Record AppState `{JsEngine} := {
  numRooms : string;
  rooms : gmap Z RoomData;
  loading : bool;
  message : string;
  messageType : MessageType;
  statistics : Statistics.t;
  showPathDialog : bool;
  roomPaths : list RoomPathInfo.t;
}.

(** A call of one of the state setters. *)
Inductive Update `{JsEngine} :=
  | NumRooms (value : string)
  | Rooms (value : gmap Z RoomData)
  | Loading (value : bool)
  | Message (value : string)
  | MessageType_ (value : MessageType)
  | Statistics_ (value : Statistics.t)
  | ShowPathDialog (value : bool)
  | RoomPaths (value : list RoomPathInfo.t).

Definition apply_update `{JsEngine} (u : Update) (s : AppState) : AppState :=
  match u with
  | NumRooms v =>
      {| numRooms := v; rooms := rooms s; loading := loading s;
         message := message s; messageType := messageType s;
         statistics := statistics s; showPathDialog := showPathDialog s;
         roomPaths := roomPaths s |}
  | Rooms v =>
      {| numRooms := numRooms s; rooms := v; loading := loading s;
         message := message s; messageType := messageType s;
         statistics := statistics s; showPathDialog := showPathDialog s;
         roomPaths := roomPaths s |}
  | Loading v =>
      {| numRooms := numRooms s; rooms := rooms s; loading := v;
         message := message s; messageType := messageType s;
         statistics := statistics s; showPathDialog := showPathDialog s;
         roomPaths := roomPaths s |}
  | Message v =>
      {| numRooms := numRooms s; rooms := rooms s; loading := loading s;
         message := v; messageType := messageType s;
         statistics := statistics s; showPathDialog := showPathDialog s;
         roomPaths := roomPaths s |}
  | MessageType_ v =>
      {| numRooms := numRooms s; rooms := rooms s; loading := loading s;
         message := message s; messageType := v;
         statistics := statistics s; showPathDialog := showPathDialog s;
         roomPaths := roomPaths s |}
  | Statistics_ v =>
      {| numRooms := numRooms s; rooms := rooms s; loading := loading s;
         message := message s; messageType := messageType s;
         statistics := v; showPathDialog := showPathDialog s;
         roomPaths := roomPaths s |}
  | ShowPathDialog v =>
      {| numRooms := numRooms s; rooms := rooms s; loading := loading s;
         message := message s; messageType := messageType s;
         statistics := statistics s; showPathDialog := v;
         roomPaths := roomPaths s |}
  | RoomPaths v =>
      {| numRooms := numRooms s; rooms := rooms s; loading := loading s;
         message := message s; messageType := messageType s;
         statistics := statistics s; showPathDialog := showPathDialog s;
         roomPaths := v |}
  end.

(** What an action does, in program order: setter calls, requests sent and
    timers registered. *)
Inductive Event `{JsEngine} :=
  | ESet (u : Update)
  | EFetch (request : Request)
  | ESetTimeout (delay : N).

(** The component in its environment: the state cells, the clock (in
    milliseconds), the due times of the pending timers and the events so
    far.  The only callback this program registers is
    [() => setMessage('')]. *)
Record World `{JsEngine} := {
  state : AppState;
  now : N;
  timers : list N;
  log : list Event;
}.

(** Time passes by [d]: the timers that fall due run their callback. *)
Definition elapse `{JsEngine} (d : N) (w : World) : World :=
  let t := (now w + d)%N in
  {| state :=
       if bool_decide (Exists (λ due, (due ≤ t)%N) (timers w))
       then apply_update (Message "") (state w)
       else state w;
     now := t;
     timers := filter (λ due, (t < due)%N) (timers w);
     log := log w |}.

(** ** Async functions as computations over the world *)

(** How an awaited call completes: normally, or by throwing. *)
Inductive Completion (A : Type) :=
  | Normal (value : A)
  | Throw (exn : Error.t).

Arguments Normal {A} value.
Arguments Throw {A} exn.

Definition M `{JsEngine} (A : Type) : Type := World → Completion A * World.

Definition run `{JsEngine} {A} (m : M A) (w : World) : Completion A * World :=
  m w.

Global Instance M_ret `{JsEngine} : MRet M := λ A a w, (Normal a, w).

Global Instance M_bind `{JsEngine} : MBind M := λ A B f m w,
  match m w with
  | (Normal a, w') => f a w'
  | (Throw e, w') => (Throw e, w')
  end.

Section Effects.
Context `{JsEngine}.

Definition throw {A} (e : Error.t) : M A := λ w, (Throw e, w).

(** [try { body } catch (error) { handler } finally { finalizer }] *)
Definition try_catch_finally
    (body : M unit) (handler : Error.t → M unit) (finalizer : M unit)
  : M unit := λ w,
  let '(c, w1) :=
    match body w with
    | (Normal a, w') => (Normal a, w')
    | (Throw e, w') => handler e w'
    end in
  match finalizer w1 with
  | (Normal _, w2) => (c, w2)
  | (Throw e, w2) => (Throw e, w2)
  end.

Definition record (e : Event) (w : World) : World :=
  {| state := state w; now := now w; timers := timers w;
     log := log w ++ [e] |}.

(** A state setter. *)
Definition set (u : Update) : M unit := λ w,
  (Normal (),
   {| state := apply_update u (state w); now := now w; timers := timers w;
      log := log w ++ [ESet u] |}).

Definition setNumRooms v := set (NumRooms v).
Definition setRooms v := set (Rooms v).
Definition setLoading v := set (Loading v).
Definition setMessage v := set (Message v).
Definition setMessageType v := set (MessageType_ v).
Definition setStatistics v := set (Statistics_ v).
Definition setShowPathDialog v := set (ShowPathDialog v).
Definition setRoomPaths v := set (RoomPaths v).

(** The value of a state cell in the current render. *)
Definition read {A} (cell : AppState → A) : M A := λ w,
  (Normal (cell (state w)), w).

(** [setTimeout(() => setMessage(''), delay)] *)
Definition setTimeout_clear_message (delay : N) : M unit := λ w,
  (Normal (),
   {| state := state w; now := now w;
      timers := timers w ++ [(now w + delay)%N];
      log := log w ++ [ESetTimeout delay] |}).

(** [await fetch(...)]: the request goes out, time passes, and the call
    resolves to the response or rejects. *)
Definition fetch {A} (request : Request) (reply : Reply A)
  : M (Response A) := λ w,
  let w' := elapse (latency reply) (record (EFetch request) w) in
  match outcome reply with
  | NetworkError m => (Throw (Error.new m), w')
  | Responded response => (Normal response, w')
  end.

(** [response.json()] *)
Definition json {A} (body : Json A) : M A :=
  match body with
  | SyntaxError m => throw (Error.new m)
  | Decoded value => mret value
  end.
End Effects.

(** ** ServiceClient: the object [api] of services/api.ts *)

Module api.
Section api.
Context `{JsEngine} (server : Server).

Definition getRooms : M RoomStateResponse.t :=
  response ← fetch GET_rooms (rooms_reply server);
  match response with
  | Response_not_ok _ => throw (Error.new "Failed to fetch rooms")
  | Response_ok body => json body
  end.

(** On a response that is not ok:
    [const error = await response.json();
     throw new Error(error.detail || 'Failed to book rooms')]. *)
Definition bookRooms (numRooms : Z) (guestId : option string)
  : M BookingResponse.t :=
  response ← fetch (POST_book numRooms guestId)
                    (book_reply server numRooms guestId);
  match response with
  | Response_not_ok body =>
      error ← json body;
      match error with
      | JsNull => throw (Error.new (TypeError_null_property "detail"))
      | _ => throw (Error.new (detail_or error "Failed to book rooms"))
      end
  | Response_ok body => json body
  end.

Definition resetBookings : M MessageResponse.t :=
  response ← fetch POST_reset (reset_reply server);
  match response with
  | Response_not_ok _ => throw (Error.new "Failed to reset bookings")
  | Response_ok body => json body
  end.

Definition generateRandomOccupancy (occupancyPercentage : Z)
  : M MessageResponse.t :=
  response ← fetch (POST_random_occupancy occupancyPercentage)
                    (random_occupancy_reply server occupancyPercentage);
  match response with
  | Response_not_ok _ =>
      throw (Error.new "Failed to generate random occupancy")
  | Response_ok body => json body
  end.
End api.
End api.

(** ** SessionController: the component [App] of App.tsx *)

Section App.
Context `{JsEngine} (server : Server).

(** [initializeRooms]: build [roomsMap], then [setRooms(roomsMap)]. *)
Definition initializeRooms : M unit := setRooms roomsMap.

(** [showMessage(msg, type)] *)
Definition showMessage (msg : string) (type : MessageType) : M unit :=
  setMessage msg;;
  setMessageType type;;
  setTimeout_clear_message 3000.

Definition fetchRooms : M unit :=
  try_catch_finally
    (setLoading true;;
     response ← api.getRooms server;
     setRooms (RoomStateResponse.rooms response);;
     setStatistics
       {| Statistics.total_rooms := RoomStateResponse.total_rooms response;
          Statistics.available_rooms :=
            RoomStateResponse.available_rooms response;
          Statistics.booked_rooms :=
            RoomStateResponse.booked_rooms response |})
    (λ exn, showMessage (Error.message exn) error)
    (setLoading false).

(** The mount effect: [initializeRooms(); fetchRooms();]. *)
Definition mount : M unit := initializeRooms;; fetchRooms.

(** The text of the success message of [handleBook]:
    [`${response.message}. Travel time: ${response.total_travel_time}
    minutes`], on one line in the source. *)
Definition booking_message (response : BookingResponse.t) : string :=
  BookingResponse.message response +:+ ". Travel time: "
    +:+ ToString_optional (BookingResponse.total_travel_time response)
    +:+ " minutes".

(** [if (response.room_paths && response.room_paths.length > 0)] *)
Definition has_room_paths (response : BookingResponse.t) : bool :=
  match BookingResponse.room_paths response with
  | Some room_paths => bool_decide (0 < Z.of_nat (length room_paths))
  | None => false
  end.

(** [handleBook]; [parseInt] yields [None] for NaN, on which the test
    [isNaN(num) || num < 1 || num > 5] holds by its first disjunct. *)
Definition handleBook : M unit :=
  input ← read numRooms;
  match parseInt input with
  | None => showMessage "Please enter a number between 1 and 5" error
  | Some num =>
      if (num <? 1) || (num >? 5)
      then showMessage "Please enter a number between 1 and 5" error
      else
        try_catch_finally
          (setLoading true;;
           response ← api.bookRooms server num None;
           showMessage (booking_message response) success;;
           fetchRooms;;
           if has_room_paths response
           then setRoomPaths
                  (default [] (BookingResponse.room_paths response));;
                setShowPathDialog true
           else mret ())
          (λ exn, showMessage (Error.message exn) error)
          (setLoading false)
  end.

Definition handleReset : M unit :=
  try_catch_finally
    (setLoading true;;
     _ ← api.resetBookings server;
     showMessage "All bookings have been reset" success;;
     fetchRooms)
    (λ exn, showMessage (Error.message exn) error)
    (setLoading false).

Definition handleRandom : M unit :=
  let occupancyPercentage := 30 in
  try_catch_finally
    (setLoading true;;
     _ ← api.generateRandomOccupancy server occupancyPercentage;
     showMessage
       ("Generated random occupancy (" +:+ pretty occupancyPercentage
          +:+ "%)") success;;
     fetchRooms)
    (λ exn, showMessage (Error.message exn) error)
    (setLoading false).

(** The three triggers of the control panel:
    [<button onClick={handleBook} disabled={loading}>] and likewise for
    [handleReset] and [handleRandom]. *)
Inductive Button := BookButton | ResetButton | RandomButton.

Definition onClick (b : Button) : M unit :=
  match b with
  | BookButton => handleBook
  | ResetButton => handleReset
  | RandomButton => handleRandom
  end.

Definition disabled (b : Button) (s : AppState) : bool := loading s.

(** A click on a trigger: a disabled element dispatches no click event. *)
Definition click (b : Button) : M unit := λ w,
  if disabled b (state w) then (Normal (), w) else onClick b w.

(** Closing the path dialog (overlay, close button, footer button):
    [() => setShowPathDialog(false)]. *)
Definition dismissDialog : M unit := setShowPathDialog false.
End App.

(** ** A concrete engine and service, for running the model *)

(** An engine restricted to integer Numbers, which print in decimal. *)
Definition integer_engine : JsEngine := {|
  number := Z;
  Number_toString := pretty;
  Number_ToBoolean := λ n, negb (n =? 0);
  Object_toString := λ _, "[object Object]"%string;
  TypeError_null_property := λ key,
    ("Cannot read properties of null (reading '" +:+ key +:+ "')")%string;
|}.

Section Samples.
Local Existing Instance integer_engine.

Definition initial_state : AppState := {|
  numRooms := "1";
  rooms := ∅;
  loading := false;
  message := "";
  messageType := success;
  statistics := {| Statistics.total_rooms := 97;
                   Statistics.available_rooms := 97;
                   Statistics.booked_rooms := 0 |};
  showPathDialog := false;
  roomPaths := [];
|}.

Definition initial_world : World :=
  {| state := initial_state; now := 0; timers := []; log := [] |}.

(** The booking response of the worked example: two rooms on floor 2. *)
Definition sample_path : RoomPathInfo.t := {|
  RoomPathInfo.room_number := 203;
  RoomPathInfo.floor := 2;
  RoomPathInfo.position := 2;
  RoomPathInfo.total_time := 7;
  RoomPathInfo.steps := ["Take stairs to floor 2"; "Walk to room 203"]%string;
|}.

Definition sample_booking : BookingResponse.t := {|
  BookingResponse.success := true;
  BookingResponse.message := "Booked 2 rooms";
  BookingResponse.booked_rooms := [203; 204];
  BookingResponse.total_travel_time := Some 7;
  BookingResponse.room_paths := Some [sample_path];
|}.

Definition sample_rooms : RoomStateResponse.t := {|
  RoomStateResponse.rooms := roomsMap;
  RoomStateResponse.total_rooms := 97;
  RoomStateResponse.available_rooms := 97;
  RoomStateResponse.booked_rooms := 0;
|}.

Definition answer {A} (a : A) : Reply A :=
  {| latency := 100; outcome := Responded (Response_ok (Decoded a)) |}.

Definition refuse {A} (body : JsValue number) : Reply A :=
  {| latency := 100; outcome := Responded (Response_not_ok (Decoded body)) |}.

(** A service that accepts every request. *)
Definition sample_server : Server := {|
  rooms_reply := answer sample_rooms;
  book_reply := λ _ _, answer sample_booking;
  reset_reply :=
    answer {| MessageResponse.success := true;
              MessageResponse.message := "reset" |};
  random_occupancy_reply := λ _,
    answer {| MessageResponse.success := true;
              MessageResponse.message := "random" |};
|}.

(** A service that answers every request with an error status and the
    given body. *)
Definition failing_server (body : JsValue number) : Server := {|
  rooms_reply := refuse body;
  book_reply := λ _ _, refuse body;
  reset_reply := refuse body;
  random_occupancy_reply := λ _, refuse body;
|}.

Definition with_input (input : string) (w : World) : World :=
  {| state := apply_update (NumRooms input) (state w); now := now w;
     timers := timers w; log := log w |}.

Definition with_loading (b : bool) (w : World) : World :=
  {| state := apply_update (Loading b) (state w); now := now w;
     timers := timers w; log := log w |}.
End Samples.

(** ** Vocabulary of the statements *)

Section Vocabulary.
Context `{JsEngine}.

(** The world an action leaves behind. *)
Definition after {A} (m : M A) (w : World) : World := (run m w).2.

(** The action completes without throwing. *)
Definition returns {A} (m : M A) (w : World) : Prop :=
  ∃ a, (run m w).1 = Normal a.

(** The events of the action begin with [pre]. *)
Definition emits {A} (pre : list Event) (m : M A) (w : World) : Prop :=
  ∃ rest, log (after m w) = log w ++ pre ++ rest.

(** Nothing but events were added to the log. *)
Definition log_grows (w w' : World) : Prop :=
  ∃ rest, log w' = log w ++ rest.

(** The dialog cells [showPathDialog] and [roomPaths] are as before. *)
Definition same_dialog (w w' : World) : Prop :=
  showPathDialog (state w') = showPathDialog (state w)
  ∧ roomPaths (state w') = roomPaths (state w).

Definition is_dialog_update (u : Update) : bool :=
  match u with
  | ShowPathDialog _ | RoomPaths _ => true
  | _ => false
  end.

(** A request was sent between [w] and [w']. *)
Definition sent (request : Request) (w w' : World) : Prop :=
  ∃ before rest, log w' = log w ++ before ++ EFetch request :: rest.

(** The input of [handleBook] is one that [parseInt] reads as a number
    of [1..5]. *)
Definition valid_input (w : World) (num : Z) : Prop :=
  parseInt (numRooms (state w)) = Some num ∧ 1 ≤ num ≤ 5.

(** No timer falls due within the next [d] milliseconds. *)
Definition quiet (d : N) (w : World) : Prop :=
  Forall (λ due, (now w + d < due)%N) (timers w).

Definition invalid_input (w : World) : Prop :=
  match parseInt (numRooms (state w)) with
  | None => True
  | Some num => num < 1 ∨ 5 < num
  end.

(** Between [w] and [w'] the validation error was shown and nothing else
    happened: no setter call for [loading], no request, no await. *)
Definition shows_validation_error_only (w w' : World) : Prop :=
  message (state w') = "Please enter a number between 1 and 5"%string
  ∧ messageType (state w') = error
  ∧ loading (state w') = loading (state w)
  ∧ now w' = now w
  ∧ log w'
    = log w ++ [ESet (Message "Please enter a number between 1 and 5");
                ESet (MessageType_ error); ESetTimeout 3000].

(** The booking call is rejected: no response, an error status, or a body
    that does not decode. *)
Definition booking_fails (server : Server) (num : Z) : Prop :=
  ∀ response,
    outcome (book_reply server num None)
    ≠ Responded (Response_ok (Decoded response)).
End Vocabulary.
(** A relation between worlds that every effect other than the setter
    calls outside [allowed] maintains. *)
Record Frame `{JsEngine} (allowed : Update → Prop) (R : relation World) := {
  frame_refl w : R w w;
  frame_trans w1 w2 w3 : R w1 w2 → R w2 w3 → R w1 w3;
  frame_set u w : allowed u → R w (after (set u) w);
  frame_record e w : R w (record e w);
  frame_elapse d w : R w (elapse d w);
  frame_setTimeout d w : R w (after (setTimeout_clear_message d) w);
}.

(** ** Sample worlds *)

Section SampleWorlds.
Local Existing Instance integer_engine.

Definition busy_world : World := with_loading true initial_world.

(** A service whose booking response carries no travel time. *)
Definition untimed_booking : BookingResponse.t := {|
  BookingResponse.success := true;
  BookingResponse.message := "Booked 1 room";
  BookingResponse.booked_rooms := [101];
  BookingResponse.total_travel_time := None;
  BookingResponse.room_paths := None;
|}.

Definition untimed_server : Server := {|
  rooms_reply := answer sample_rooms;
  book_reply := λ _ _, answer untimed_booking;
  reset_reply := reset_reply sample_server;
  random_occupancy_reply := random_occupancy_reply sample_server;
|}.

(** Message A at time 0, message B at time 1000. *)
Definition two_messages : World :=
  after (showMessage "B" success)
    (elapse 1000 (after (showMessage "A" success) initial_world)).

(** An error body whose [detail] is present and empty. *)
Definition empty_detail : JsValue number :=
  JsObject [("detail"%string, JsString "")].
End SampleWorlds.

(** ** The view: what [App] renders from the state *)

(** A cell of the grid: a room ([key], [className], [title] and the number
    shown), or one of the fillers of floor 10 ([key] only). *)
Inductive Cell :=
  | RoomCell (key : Z) (className title : string) (text : Z)
  | EmptyCell (key : string).

(** [renderRoom] *)
Definition renderRoom (room : RoomData) : Cell :=
  let isBooked := bool_decide (status room = booked) in
  RoomCell (room_number room)
    ("room-cell " +:+ (if isBooked then "booked" else "available"))
    ("Room " +:+ pretty (room_number room) +:+ " - "
       +:+ (if isBooked then "Booked" else "Available"))
    (room_number room).

(** The content of one [rooms-row]: the rooms of the floor, then for floor
    10 the three fillers [Array.from({ length: 3 })]. *)
Definition floor_row (rooms : gmap Z RoomData) (fl : Z) : list Cell :=
  (renderRoom <$> getRoomsForFloor rooms fl)
  ++ (if decide (fl = 10)
      then (λ idx, EmptyCell ("empty-" +:+ pretty idx)) <$> seqZ 0 3
      else []).

(** The rows of [rooms-grid]: [[10, 9, ..., 1].map(floor => ...)]. *)
Definition rooms_grid (rooms : gmap Z RoomData) : list (Z * list Cell) :=
  (λ fl, (fl, floor_row rooms fl)) <$> [10; 9; 8; 7; 6; 5; 4; 3; 2; 1].

Section View.
Context `{JsEngine}.

(** [{message && (<div className={`message ${messageType}`}>{message}</div>)}]:
    the class and the text of the banner, if one is rendered. *)
Definition message_banner (s : AppState) : option (string * string) :=
  if bool_decide (message s = ""%string) then None
  else Some ("message "
               +:+ match messageType s with
                   | success => "success"
                   | error => "error"
                   end,
             message s).
End View.

(** ** Vocabulary of the further statements *)

(** A character that is a digit in radix 10. *)
Definition is_decimal_digit (c : ascii) : bool :=
  match digit_value c with
  | Some d => d <? 10
  | None => false
  end.

(** What may follow the numeral of [z] in an input without changing what
    [parseInt] reads: nothing, or text whose first character is not a
    decimal digit and, after a lone 0, not the [x] of a hexadecimal
    prefix. *)
Definition ends_numeral (z : Z) (tail : string) : Prop :=
  match tail with
  | EmptyString => True
  | String c _ =>
      is_decimal_digit c = false
      ∧ (z = 0 → c ≠ "x"%char ∧ c ≠ "X"%char)
  end.

Section MoreVocabulary.
Context `{JsEngine}.

(** The call throws [exn], whatever the world it runs in. *)
Definition rejects {A} (m : M A) (exn : Error.t) : Prop :=
  ∀ w, (run m w).1 = Throw exn.

(** The registry cells [rooms] and [statistics] are as before. *)
Definition same_registry (w w' : World) : Prop :=
  rooms (state w') = rooms (state w)
  ∧ statistics (state w') = statistics (state w).

Definition is_registry_update (u : Update) : bool :=
  match u with
  | Rooms _ | Statistics_ _ => true
  | _ => false
  end.

(** The input cell [numRooms] is as before. *)
Definition same_input (w w' : World) : Prop :=
  numRooms (state w') = numRooms (state w).

Definition is_input_update (u : Update) : bool :=
  match u with
  | NumRooms _ => true
  | _ => false
  end.

(** The shape the three handlers share:
    [try { setLoading(true); const r = await call; ... }
     catch (error) { showMessage(error.message, 'error') }
     finally { setLoading(false) }]. *)
Definition action {A} (call : M A) (k : A → M unit) : M unit :=
  try_catch_finally
    (setLoading true;; r ← call; k r)
    (λ exn, showMessage (Error.message exn) error)
    (setLoading false).

(** The shape of [getRooms], [resetBookings] and
    [generateRandomOccupancy]: one request, a fixed text on a response that
    is not ok, the decoded body otherwise. *)
Definition plain_endpoint {A} (request : Request) (reply : Reply A)
    (generic : string) : M A :=
  response ← fetch request reply;
  match response with
  | Response_not_ok _ => throw (Error.new generic)
  | Response_ok body => json body
  end.

(** The events of an action whose call was rejected with [exn]. *)
Definition failure_events (request : Request) (exn : Error.t) : list Event :=
  [ESet (Loading true); EFetch request;
   ESet (Message (Error.message exn)); ESet (MessageType_ error);
   ESetTimeout 3000; ESet (Loading false)].

(** Between [w] and [w'] an action sent [request], had it rejected with
    [exn], showed the text of [exn] as an error and did nothing else. *)
Definition failed_with (request : Request) (exn : Error.t) (w w' : World)
  : Prop :=
  message (state w') = Error.message exn
  ∧ messageType (state w') = error
  ∧ loading (state w') = false
  ∧ same_registry w w'
  ∧ same_dialog w w'
  ∧ log w' = log w ++ failure_events request exn.
End MoreVocabulary.

(** ** Further sample services and registries *)

Section MoreSamples.
Local Existing Instance integer_engine.



(** A service that accepts the booking and then refuses the refetch. *)
Definition stale_server : Server := {|
  rooms_reply := refuse JsNull;
  book_reply := λ _ _, answer sample_booking;
  reset_reply := reset_reply sample_server;
  random_occupancy_reply := random_occupancy_reply sample_server;
|}.

(** The booking response of the worked example with [success] false and
    no booked rooms. *)
Definition flagged_booking : BookingResponse.t := {|
  BookingResponse.success := false;
  BookingResponse.message := "Booked 2 rooms";
  BookingResponse.booked_rooms := [];
  BookingResponse.total_travel_time := Some 7;
  BookingResponse.room_paths := Some [sample_path];
|}.

Definition flagged_server : Server := {|
  rooms_reply := rooms_reply sample_server;
  book_reply := λ _ _, answer flagged_booking;
  reset_reply := reset_reply sample_server;
  random_occupancy_reply := random_occupancy_reply sample_server;
|}.

(** An error body as the service sends it. *)
Definition detail_body : JsValue number :=
  JsObject [("detail"%string, JsString "Not enough rooms available")].

(** A registry with two rooms at one position of floor 1, stored under the
    keys 7 and 3, a room ahead of them and a room on floor 11. *)
Definition crowded_rooms : gmap Z RoomData :=
  list_to_map
    [(7, {| room_number := 107; floor := 1; position := 4;
            status := booked; guest_id := None |});
     (3, {| room_number := 103; floor := 1; position := 4;
            status := available; guest_id := None |});
     (9, {| room_number := 101; floor := 1; position := 0;
            status := available; guest_id := None |});
     (5, {| room_number := 1101; floor := 11; position := 0;
            status := available; guest_id := None |})].
End MoreSamples.

(** ** Registry theorems *)

Section sort_facts.
Context {A : Type} (key : A → Z).

Let by_key (a b : A) : Z := key a - key b.

Lemma sort_insert_Permutation x l : sort_insert by_key x l ≡ₚ x :: l.
Proof.
  induction l as [|y l IH]; simpl; [done|].
  case_decide; [done|]. rewrite IH. apply Permutation_swap.
Qed.

Lemma Array_sort_Permutation l : Array_sort by_key l ≡ₚ l.
Proof.
  induction l as [|x l IH]; simpl; [done|].
  rewrite sort_insert_Permutation. by f_equiv.
Qed.

Lemma sort_insert_sorted x l :
  StronglySorted (λ a b, key a ≤ key b) l →
  StronglySorted (λ a b, key a ≤ key b) (sort_insert by_key x l).
Proof.
  induction 1 as [|y l Hl IH Hy]; simpl.
  - repeat constructor.
  - unfold by_key at 1. case_decide as Hxy.
    + constructor; [by constructor|].
      constructor; [lia|].
      eapply Forall_impl; [exact Hy|]. simpl. intros; lia.
    + constructor; [done|].
      rewrite sort_insert_Permutation. constructor; [lia|done].
Qed.

Lemma Array_sort_sorted l :
  StronglySorted (λ a b, key a ≤ key b) (Array_sort by_key l).
Proof.
  induction l as [|x l IH]; simpl; [constructor|].
  by apply sort_insert_sorted.
Qed.
End sort_facts.

Lemma Object_values_Permutation (rooms : gmap Z RoomData) :
  Object_values rooms ≡ₚ (map_to_list rooms).*2.
Proof. unfold Object_values. by rewrite merge_sort_Permutation. Qed.

Lemma elem_of_Object_values (rooms : gmap Z RoomData) (room : RoomData) :
  room ∈ Object_values rooms ↔ ∃ k, rooms !! k = Some room.
Proof.
  rewrite Object_values_Permutation, list_elem_of_fmap. split.
  - intros [[k r] [-> Hkr]]. exists k. by apply elem_of_map_to_list.
  - intros [k Hk]. exists (k, room). split; [done|].
    by apply elem_of_map_to_list.
Qed.

Lemma roomsMap_floor_1_9 (fl : Z) :
  1 ≤ fl ≤ 9 →
  size (filter (λ kr : Z * RoomData, floor kr.2 = fl) roomsMap) = 10%nat
  ∧ ∀ pos, 0 ≤ pos ≤ 9 →
      roomsMap !! (fl * 100 + pos + 1)
      = Some {| room_number := fl * 100 + pos + 1; floor := fl;
                position := pos; status := available; guest_id := None |}.
Proof.
  intros Hfl.
  assert (Hcases : fl ∈ seqZ 1 9) by (apply elem_of_seqZ; lia).
  split.
  - clear Hfl. revert fl Hcases. apply Forall_forall.
    apply (bool_decide_unpack _). by vm_compute.
  - intros pos Hpos.
    assert (Hp : pos ∈ seqZ 0 10) by (apply elem_of_seqZ; lia).
    clear Hpos. revert pos Hp. apply Forall_forall.
    clear Hfl. revert fl Hcases. apply Forall_forall.
    apply (bool_decide_unpack _). by vm_compute.
Qed.

Lemma roomsMap_floor_10 :
  size (filter (λ kr : Z * RoomData, floor kr.2 = 10) roomsMap) = 7%nat
  ∧ ∀ pos, 0 ≤ pos ≤ 6 →
      roomsMap !! (1000 + pos + 1)
      = Some {| room_number := 1000 + pos + 1; floor := 10;
                position := pos; status := available; guest_id := None |}.
Proof.
  split; [by vm_compute|].
  intros pos Hpos.
  assert (Hp : pos ∈ seqZ 0 7) by (apply elem_of_seqZ; lia).
  clear Hpos. revert pos Hp. apply Forall_forall.
  apply (bool_decide_unpack _). by vm_compute.
Qed.

(** C7.  The registry built by [initializeRooms] has exactly 97 entries,
    each stored under its own room number and available; every floor from
    1 to 9 holds exactly 10 of them, numbered [floor*100 + pos + 1] for
    [pos] in [0,9], and floor 10 holds exactly 7, numbered 1001 to 1007;
    [initializeRooms] installs this registry as the [rooms] cell. *)
Theorem initializeRooms_layout `{JsEngine} :
  (∀ w, rooms (state (after initializeRooms w)) = roomsMap)
  ∧ size roomsMap = 97%nat
  ∧ map_Forall (λ k room, room_number room = k ∧ status room = available)
               roomsMap
  ∧ (∀ fl, 1 ≤ fl ≤ 9 →
       size (filter (λ kr : Z * RoomData, floor kr.2 = fl) roomsMap) = 10%nat
       ∧ ∀ pos, 0 ≤ pos ≤ 9 →
           roomsMap !! (fl * 100 + pos + 1)
           = Some {| room_number := fl * 100 + pos + 1; floor := fl;
                     position := pos; status := available;
                     guest_id := None |})
  ∧ size (filter (λ kr : Z * RoomData, floor kr.2 = 10) roomsMap) = 7%nat
  ∧ (∀ pos, 0 ≤ pos ≤ 6 →
       roomsMap !! (1000 + pos + 1)
       = Some {| room_number := 1000 + pos + 1; floor := 10;
                 position := pos; status := available; guest_id := None |}).
Proof.
  split; [done|].
  split; [by vm_compute|].
  split; [apply (bool_decide_unpack _); by vm_compute|].
  split; [apply roomsMap_floor_1_9|].
  apply roomsMap_floor_10.
Qed.

(** C9.  For every registry and every floor, [getRoomsForFloor] returns
    exactly the rooms of the registry whose [floor] field is that floor,
    each as often as the registry holds it, in ascending order of
    [position]. *)
Theorem getRoomsForFloor_exact_sorted (rooms : gmap Z RoomData) (fl : Z) :
  getRoomsForFloor rooms fl
    ≡ₚ filter (λ room, floor room = fl) (map_to_list rooms).*2
  ∧ (∀ room, room ∈ getRoomsForFloor rooms fl
             ↔ (∃ k, rooms !! k = Some room) ∧ floor room = fl)
  ∧ StronglySorted (λ a b, position a ≤ position b)
                   (getRoomsForFloor rooms fl).
Proof.
  unfold getRoomsForFloor. split; [|split].
  - rewrite (Array_sort_Permutation position).
    by rewrite Object_values_Permutation.
  - intros room. rewrite (Array_sort_Permutation position).
    rewrite list_elem_of_filter, elem_of_Object_values. tauto.
  - apply (Array_sort_sorted position).
Qed.

(** ** Reasoning about computations *)

Section Running.
Context `{JsEngine}.

Lemma run_bind {A B} (m : M A) (f : A → M B) w :
  run (m ≫= f) w
  = match run m w with
    | (Normal a, w') => run (f a) w'
    | (Throw e, w') => (Throw e, w')
    end.
Proof. reflexivity. Qed.

Lemma after_bind_normal {A B} (m : M A) (f : A → M B) w a w1 :
  run m w = (Normal a, w1) → after (m ≫= f) w = after (f a) w1.
Proof. unfold after. rewrite run_bind. by intros ->. Qed.

Lemma after_bind_throw {A B} (m : M A) (f : A → M B) w e w1 :
  run m w = (Throw e, w1) → after (m ≫= f) w = w1.
Proof. unfold after. rewrite run_bind. by intros ->. Qed.

Lemma returns_bind {A B} (m : M A) (f : A → M B) w :
  returns m w →
  (∀ a w1, run m w = (Normal a, w1) → returns (f a) w1) →
  returns (m ≫= f) w.
Proof.
  intros [a Ha] Hf. unfold returns. rewrite run_bind.
  destruct (run m w) as [[a'|e] w1] eqn:Hm; simpl in Ha; [|done].
  by apply Hf.
Qed.

Lemma returns_set u w : returns (set u) w.
Proof. by eexists. Qed.

Lemma returns_showMessage msg type w : returns (showMessage msg type) w.
Proof. by eexists. Qed.

(** [showMessage] sets the two message cells and registers one more
    timer, due 3000 ms from now; the timers already pending stay. *)
Lemma run_showMessage msg type w :
  run (showMessage msg type) w
  = (Normal (),
     {| state := apply_update (MessageType_ type)
                   (apply_update (Message msg) (state w));
        now := now w;
        timers := timers w ++ [(now w + 3000)%N];
        log := log w ++ [ESet (Message msg); ESet (MessageType_ type);
                         ESetTimeout 3000] |}).
Proof.
  unfold run, showMessage, mbind, M_bind, setMessage, setMessageType, set,
    setTimeout_clear_message. simpl. by rewrite <- !app_assoc.
Qed.

(** With a handler that never throws and the finalizer
    [setLoading(false)], a [try] statement completes normally and leaves
    [loading] false. *)
Lemma try_setLoading_false body handler w :
  (∀ e w1, returns (handler e) w1) →
  let m := try_catch_finally body handler (setLoading false) in
  (run m w).1 = Normal () ∧ loading (state (after m w)) = false.
Proof.
  intros Hh. unfold after, run, try_catch_finally. simpl.
  destruct (body w) as [[[]|e] w1]; [done|].
  destruct (Hh e w1) as [[] Hr]. unfold run in Hr.
  destruct (handler e w1) as [c w2]. simpl in Hr. by subst c.
Qed.
End Running.

Section Framing.
Context `{JsEngine} {allowed : Update → Prop} {R : relation World}.
Context (F : Frame allowed R).

Lemma frame_bind {A B} (m : M A) (f : A → M B) w :
  R w (after m w) →
  (∀ a w1, run m w = (Normal a, w1) → R w1 (after (f a) w1)) →
  R w (after (m ≫= f) w).
Proof.
  intros Hm Hf. unfold after in *. rewrite run_bind.
  destruct (run m w) as [[a|e] w1] eqn:Hrun; simpl in *; [|done].
  eapply (frame_trans _ _ F); [exact Hm|]. by apply Hf.
Qed.

Lemma frame_try body handler finalizer w :
  R w (after body w) →
  (∀ e w1, run body w = (Throw e, w1) → R w1 (after (handler e) w1)) →
  (∀ w2, R w2 (after finalizer w2)) →
  R w (after (try_catch_finally body handler finalizer) w).
Proof.
  intros Hb Hh Hf. unfold after, run, try_catch_finally in *.
  destruct (body w) as [[a|e] w1] eqn:Hbody; simpl in *.
  - specialize (Hf w1). destruct (finalizer w1) as [[?|?] w2]; simpl in *;
      by eapply (frame_trans _ _ F).
  - specialize (Hh e w1 eq_refl).
    destruct (handler e w1) as [c w2]; simpl in *.
    specialize (Hf w2). destruct (finalizer w2) as [[?|?] w3]; simpl in *;
      eapply (frame_trans _ _ F); try exact Hb;
      by eapply (frame_trans _ _ F).
Qed.

Lemma frame_throw {A} e w : R w (after (throw (A:=A) e) w).
Proof. apply (frame_refl _ _ F). Qed.

Lemma frame_json {A} (body : Json A) w : R w (after (json body) w).
Proof. destruct body; apply (frame_refl _ _ F). Qed.

Lemma frame_fetch {A} request (reply : Reply A) w :
  R w (after (fetch request reply) w).
Proof.
  unfold after, run, fetch.
  destruct (outcome reply); simpl;
    (eapply (frame_trans _ _ F); [apply (frame_record _ _ F)|]);
    apply (frame_elapse _ _ F).
Qed.

Lemma frame_getRooms server w : R w (after (api.getRooms server) w).
Proof.
  apply frame_bind; [apply frame_fetch|].
  intros [body|body] w1 _; [apply frame_json|apply frame_throw].
Qed.

Lemma frame_bookRooms server num guest w :
  R w (after (api.bookRooms server num guest) w).
Proof.
  apply frame_bind; [apply frame_fetch|].
  intros [body|body] w1 _; [apply frame_json|].
  apply frame_bind; [apply frame_json|].
  intros error w2 _. destruct error; apply frame_throw.
Qed.

Lemma frame_resetBookings server w :
  R w (after (api.resetBookings server) w).
Proof.
  apply frame_bind; [apply frame_fetch|].
  intros [body|body] w1 _; [apply frame_json|apply frame_throw].
Qed.

Lemma frame_generateRandomOccupancy server pct w :
  R w (after (api.generateRandomOccupancy server pct) w).
Proof.
  apply frame_bind; [apply frame_fetch|].
  intros [body|body] w1 _; [apply frame_json|apply frame_throw].
Qed.

(** From here on the setter calls for the cells other than the dialog
    are allowed. *)
Context (Hallowed : ∀ u, is_dialog_update u = false → allowed u).

Lemma frame_showMessage msg type w : R w (after (showMessage msg type) w).
Proof.
  apply frame_bind; [by apply (frame_set _ _ F), Hallowed|]. intros _ w1 _.
  apply frame_bind; [by apply (frame_set _ _ F), Hallowed|]. intros _ w2 _.
  apply (frame_setTimeout _ _ F).
Qed.

Lemma frame_fetchRooms server w : R w (after (fetchRooms server) w).
Proof.
  apply frame_try.
  - apply frame_bind; [by apply (frame_set _ _ F), Hallowed|].
    intros _ w1 _.
    apply frame_bind; [apply frame_getRooms|]. intros response w2 _.
    apply frame_bind; by intros; apply (frame_set _ _ F), Hallowed.
  - intros; apply frame_showMessage.
  - by intros; apply (frame_set _ _ F), Hallowed.
Qed.

Lemma frame_handleReset server w : R w (after (handleReset server) w).
Proof.
  apply frame_try.
  - apply frame_bind; [by apply (frame_set _ _ F), Hallowed|].
    intros _ w1 _.
    apply frame_bind; [apply frame_resetBookings|]. intros _ w2 _.
    apply frame_bind; [apply frame_showMessage|]. intros _ w3 _.
    apply frame_fetchRooms.
  - intros; apply frame_showMessage.
  - by intros; apply (frame_set _ _ F), Hallowed.
Qed.

Lemma frame_handleRandom server w : R w (after (handleRandom server) w).
Proof.
  apply frame_try.
  - apply frame_bind; [by apply (frame_set _ _ F), Hallowed|].
    intros _ w1 _.
    apply frame_bind; [apply frame_generateRandomOccupancy|].
    intros _ w2 _.
    apply frame_bind; [apply frame_showMessage|]. intros _ w3 _.
    apply frame_fetchRooms.
  - intros; apply frame_showMessage.
  - by intros; apply (frame_set _ _ F), Hallowed.
Qed.

(** What follows the booking response in [handleBook], dialog included. *)
Lemma frame_handleBook_response server (response : BookingResponse.t) w :
  (∀ u, allowed u) →
  R w (after (showMessage (booking_message response) success;;
              fetchRooms server;;
              if has_room_paths response
              then setRoomPaths
                     (default [] (BookingResponse.room_paths response));;
                   setShowPathDialog true
              else mret ()) w).
Proof.
  intros Hall.
  apply frame_bind; [apply frame_showMessage|]. intros _ w1 _.
  apply frame_bind; [apply frame_fetchRooms|]. intros _ w2 _.
  destruct (has_room_paths response); [|apply (frame_refl _ _ F)].
  apply frame_bind; by intros; apply (frame_set _ _ F).
Qed.
End Framing.

Section Frames.
Context `{JsEngine}.

Lemma elapse_log d w : log (elapse d w) = log w.
Proof. reflexivity. Qed.

Lemma elapse_dialog d w :
  showPathDialog (state (elapse d w)) = showPathDialog (state w)
  ∧ roomPaths (state (elapse d w)) = roomPaths (state w).
Proof. unfold elapse; simpl. by case_bool_decide. Qed.

Lemma elapse_loading d w : loading (state (elapse d w)) = loading (state w).
Proof. unfold elapse; simpl. by case_bool_decide. Qed.

(** Actions only ever append to the log. *)
Lemma log_frame : Frame (λ _, True) log_grows.
Proof.
  split; unfold log_grows.
  - intros w. exists []. by rewrite app_nil_r.
  - intros w1 w2 w3 [r1 H1] [r2 H2]. exists (r1 ++ r2).
    by rewrite H2, H1, app_assoc.
  - intros u w _. by eexists.
  - intros e w. by eexists.
  - intros d w. exists []. by rewrite app_nil_r.
  - intros d w. by eexists.
Qed.

(** Only the two dialog setters touch the dialog. *)
Lemma dialog_frame : Frame (λ u, is_dialog_update u = false) same_dialog.
Proof.
  split; unfold same_dialog.
  - done.
  - intros w1 w2 w3 [? ?] [? ?]. split; congruence.
  - intros [] w Hu; simpl in Hu; done.
  - done.
  - intros d w. apply elapse_dialog.
  - done.
Qed.

Lemma emits_bind_l {A B} pre (m : M A) (f : A → M B) w :
  emits pre m w →
  (∀ a w1, log_grows w1 (after (f a) w1)) →
  emits pre (m ≫= f) w.
Proof.
  intros [rest Hm] Hf. unfold emits, after in *. rewrite run_bind.
  destruct (run m w) as [[a|e] w1]; simpl in *; [|by exists rest].
  destruct (Hf a w1) as [rest' Hf']. exists (rest ++ rest').
  by rewrite Hf', Hm, <- !app_assoc.
Qed.

Lemma emits_bind_normal {A B} pre1 pre2 (m : M A) (f : A → M B) w a w1 :
  run m w = (Normal a, w1) →
  log w1 = log w ++ pre1 →
  emits pre2 (f a) w1 →
  emits (pre1 ++ pre2) (m ≫= f) w.
Proof.
  intros Hm Hlog [rest Hf]. exists rest.
  rewrite (after_bind_normal _ _ _ _ _ Hm), Hf, Hlog.
  by rewrite <- !app_assoc.
Qed.

Lemma emits_try pre body handler finalizer w :
  emits pre body w →
  (∀ e w1, log_grows w1 (after (handler e) w1)) →
  (∀ w2, log_grows w2 (after finalizer w2)) →
  emits pre (try_catch_finally body handler finalizer) w.
Proof.
  intros [rest Hb] Hh Hf.
  assert (Hgrow : log_grows (after body w)
                    (after (try_catch_finally body handler finalizer) w)).
  { unfold after, run, try_catch_finally in *.
    destruct (body w) as [[a|e] w1]; simpl in *.
    - specialize (Hf w1).
      by destruct (finalizer w1) as [[?|?] w2].
    - specialize (Hh e w1). destruct (handler e w1) as [c w2]; simpl in *.
      specialize (Hf w2).
      destruct (finalizer w2) as [[?|?] w3]; simpl in *;
        by eapply (frame_trans _ _ log_frame). }
  destruct Hgrow as [rest' Hg]. exists (rest ++ rest').
  by rewrite Hg, Hb, <- !app_assoc.
Qed.

Lemma emits_fetch {A} request (reply : Reply A) w :
  emits [EFetch request] (fetch request reply) w.
Proof.
  exists []. unfold after, run, fetch.
  by destruct (outcome reply).
Qed.

Lemma emits_sent {A} request before (m : M A) w :
  emits (before ++ [EFetch request]) m w → sent request w (after m w).
Proof.
  intros [rest Hm]. exists before, rest.
  by rewrite Hm, <- app_assoc.
Qed.

(** The catch clauses of the handlers never throw. *)
Lemma catch_clause_returns (exn : Error.t) w :
  returns (showMessage (Error.message exn) error) w.
Proof. apply returns_showMessage. Qed.

(** Each handler starts by [setLoading(true)] and then sends its
    request. *)
Lemma handleReset_emits server w :
  emits [ESet (Loading true); EFetch POST_reset] (handleReset server) w.
Proof.
  apply emits_try.
  - apply (emits_bind_normal [ESet (Loading true)] [EFetch POST_reset]
             _ _ _ () (after (setLoading true) w)); [done..|].
    apply emits_bind_l.
    + apply emits_bind_l; [apply emits_fetch|].
      intros [body|body] w1;
        [apply (frame_json log_frame)|apply (frame_throw log_frame)].
    + intros _ w1.
      apply (frame_bind log_frame);
        [by apply (frame_showMessage log_frame)|]. intros _ w2 _.
      by apply (frame_fetchRooms log_frame).
  - intros. by apply (frame_showMessage log_frame).
  - intros. by apply (frame_set _ _ log_frame).
Qed.

Lemma handleRandom_emits server w :
  emits [ESet (Loading true); EFetch (POST_random_occupancy 30)]
        (handleRandom server) w.
Proof.
  apply emits_try.
  - apply (emits_bind_normal [ESet (Loading true)]
             [EFetch (POST_random_occupancy 30)]
             _ _ _ () (after (setLoading true) w)); [done..|].
    apply emits_bind_l.
    + apply emits_bind_l; [apply emits_fetch|].
      intros [body|body] w1;
        [apply (frame_json log_frame)|apply (frame_throw log_frame)].
    + intros _ w1.
      apply (frame_bind log_frame);
        [by apply (frame_showMessage log_frame)|]. intros _ w2 _.
      by apply (frame_fetchRooms log_frame).
  - intros. by apply (frame_showMessage log_frame).
  - intros. by apply (frame_set _ _ log_frame).
Qed.

Lemma handleBook_valid server w num :
  valid_input w num →
  run (handleBook server) w
  = run (try_catch_finally
           (setLoading true;;
            response ← api.bookRooms server num None;
            showMessage (booking_message response) success;;
            fetchRooms server;;
            if has_room_paths response
            then setRoomPaths
                   (default [] (BookingResponse.room_paths response));;
                 setShowPathDialog true
            else mret ())
           (λ exn, showMessage (Error.message exn) error)
           (setLoading false)) w.
Proof.
  intros [Hparse Hrange]. unfold handleBook.
  rewrite run_bind. simpl. rewrite Hparse.
  assert ((num <? 1) || (num >? 5) = false) as ->; [|done].
  rewrite Z.gtb_ltb.
  apply orb_false_iff. split; apply Z.ltb_ge; lia.
Qed.

Lemma handleBook_emits server w num :
  valid_input w num →
  emits [ESet (Loading true); EFetch (POST_book num None)]
        (handleBook server) w.
Proof.
  intros Hvalid. unfold emits, after.
  rewrite (handleBook_valid _ _ _ Hvalid).
  apply emits_try.
  - apply (emits_bind_normal [ESet (Loading true)]
             [EFetch (POST_book num None)]
             _ _ _ () (after (setLoading true) w)); [done..|].
    apply emits_bind_l.
    + apply emits_bind_l; [apply emits_fetch|].
      intros [body|body] w1; [apply (frame_json log_frame)|].
      apply (frame_bind log_frame); [apply (frame_json log_frame)|].
      intros e w2 _. destruct e; apply (frame_throw log_frame).
    + intros response w1.
      by apply (frame_handleBook_response log_frame).
  - intros. by apply (frame_showMessage log_frame).
  - intros. by apply (frame_set _ _ log_frame).
Qed.
End Frames.

(** ** The busy flag *)

(** C8.  Each action (book with valid input, reset, generateRandom) begins
    by [setLoading(true)], before its request is sent; whatever the service
    answers, the action completes without throwing and leaves [loading]
    false. *)
Theorem loading_brackets_every_action `{JsEngine} (server : Server) w :
  (emits [ESet (Loading true); EFetch POST_reset] (handleReset server) w
   ∧ (run (handleReset server) w).1 = Normal ()
   ∧ loading (state (after (handleReset server) w)) = false)
  ∧ (emits [ESet (Loading true); EFetch (POST_random_occupancy 30)]
           (handleRandom server) w
     ∧ (run (handleRandom server) w).1 = Normal ()
     ∧ loading (state (after (handleRandom server) w)) = false)
  ∧ (∀ num, valid_input w num →
       emits [ESet (Loading true); EFetch (POST_book num None)]
             (handleBook server) w
       ∧ (run (handleBook server) w).1 = Normal ()
       ∧ loading (state (after (handleBook server) w)) = false).
Proof.
  split; [|split].
  - split; [apply handleReset_emits|].
    apply try_setLoading_false, catch_clause_returns.
  - split; [apply handleRandom_emits|].
    apply try_setLoading_false, catch_clause_returns.
  - intros num Hvalid. split; [by apply handleBook_emits|].
    unfold after. rewrite (handleBook_valid _ _ _ Hvalid).
    apply try_setLoading_false, catch_clause_returns.
Qed.

(** C1, as the code has it.  The guard against a second action is the
    [disabled={loading}] attribute of the three triggers: while [loading]
    is true a click on any of them changes nothing and sends nothing.  The
    handlers themselves carry no guard: run while [loading] is true,
    [handleReset] and [handleRandom] send their request, and so does
    [handleBook] on a valid input. *)
Theorem busy_guard_is_the_disabled_trigger `{JsEngine} (server : Server) w :
  loading (state w) = true →
  (∀ b, run (click server b) w = (Normal (), w))
  ∧ sent POST_reset w (after (handleReset server) w)
  ∧ sent (POST_random_occupancy 30) w (after (handleRandom server) w)
  ∧ (∀ num, valid_input w num →
       sent (POST_book num None) w (after (handleBook server) w)).
Proof.
  intros Hbusy. split; [|split; [|split]].
  - intros b. unfold run, click, disabled. by rewrite Hbusy.
  - apply (emits_sent _ [ESet (Loading true)]), handleReset_emits.
  - apply (emits_sent _ [ESet (Loading true)]), handleRandom_emits.
  - intros num Hvalid.
    by apply (emits_sent _ [ESet (Loading true)]), handleBook_emits.
Qed.

(** ** Validation *)

(** C3.  When the input does not parse ([parseInt] yields NaN) or parses
    to a number below 1 or above 5, [handleBook] shows the error message
    "Please enter a number between 1 and 5" and does nothing else: it does
    not set [loading], sends no request, and returns at once. *)
Theorem handleBook_rejects_invalid_input `{JsEngine} (server : Server) w :
  invalid_input w →
  (run (handleBook server) w).1 = Normal ()
  ∧ shows_validation_error_only w (after (handleBook server) w).
Proof.
  unfold invalid_input, shows_validation_error_only, after, handleBook.
  rewrite run_bind. simpl.
  destruct (parseInt (numRooms (state w))) as [num|].
  - intros Hrange.
    assert ((num <? 1) || (num >? 5) = true) as ->.
    { rewrite Z.gtb_ltb. apply orb_true_iff.
      destruct Hrange; [left|right]; apply Z.ltb_lt; lia. }
    by rewrite run_showMessage.
  - intros _. by rewrite run_showMessage.
Qed.

(** ** Booking *)

Section Booking.
Context `{JsEngine} (server : Server).

Lemma run_bookRooms_ok num guest response w :
  outcome (book_reply server num guest)
  = Responded (Response_ok (Decoded response)) →
  run (api.bookRooms server num guest) w
  = (Normal response,
     elapse (latency (book_reply server num guest))
            (record (EFetch (POST_book num guest)) w)).
Proof.
  intros Hreply. unfold api.bookRooms. rewrite run_bind.
  unfold run at 1, fetch. by rewrite Hreply.
Qed.

Lemma run_bookRooms_normal num guest response w w1 :
  run (api.bookRooms server num guest) w = (Normal response, w1) →
  outcome (book_reply server num guest)
  = Responded (Response_ok (Decoded response)).
Proof.
  unfold api.bookRooms. rewrite run_bind. unfold run at 1, fetch.
  destruct (outcome (book_reply server num guest))
    as [m|[[m|r]|[m|error]]]; simpl; try done.
  - by intros [= ->].
  - by destruct error.
Qed.

Lemma run_fetchRooms w :
  run (fetchRooms server) w = (Normal (), after (fetchRooms server) w).
Proof.
  pose proof (try_setLoading_false
    (setLoading true;;
     response ← api.getRooms server;
     setRooms (RoomStateResponse.rooms response);;
     setStatistics
       {| Statistics.total_rooms := RoomStateResponse.total_rooms response;
          Statistics.available_rooms :=
            RoomStateResponse.available_rooms response;
          Statistics.booked_rooms :=
            RoomStateResponse.booked_rooms response |})
    (λ exn, showMessage (Error.message exn) error) w
    (λ e w1, catch_clause_returns e w1)) as [Hr _].
  unfold after, fetchRooms.
  by destruct (run (try_catch_finally _ _ _) w) as [c w'];
    simpl in *; subst.
Qed.

Lemma fetchRooms_emits w :
  emits [ESet (Loading true); EFetch GET_rooms] (fetchRooms server) w.
Proof.
  apply emits_try.
  - apply (emits_bind_normal [ESet (Loading true)] [EFetch GET_rooms]
             _ _ _ () (after (setLoading true) w)); [done..|].
    apply emits_bind_l.
    + apply emits_bind_l; [apply emits_fetch|].
      intros [body|body] w1;
        [apply (frame_json log_frame)|apply (frame_throw log_frame)].
    + intros response w1.
      apply (frame_bind log_frame); by intros; apply (frame_set _ _ log_frame).
  - intros. by apply (frame_showMessage log_frame).
  - intros. by apply (frame_set _ _ log_frame).
Qed.

(** When its body completes normally, a [try] statement with a setter as
    finalizer ends with that setter call. *)
Lemma after_try_normal body handler u w w1 :
  run body w = (Normal (), w1) →
  after (try_catch_finally body handler (set u)) w = after (set u) w1.
Proof.
  unfold after, run, try_catch_finally. by intros ->.
Qed.

(** The worlds [handleBook] goes through when the booking call
    succeeds. *)
Lemma handleBook_success_after w num response :
  valid_input w num →
  outcome (book_reply server num None)
  = Responded (Response_ok (Decoded response)) →
  let w1 := after (setLoading true) w in
  let w2 := elapse (latency (book_reply server num None))
                   (record (EFetch (POST_book num None)) w1) in
  let w3 := after (showMessage (booking_message response) success) w2 in
  let w4 := after (fetchRooms server) w3 in
  let w5 := if has_room_paths response
            then after (setShowPathDialog true)
                   (after (setRoomPaths
                             (default []
                                (BookingResponse.room_paths response))) w4)
            else w4 in
  after (handleBook server) w = after (setLoading false) w5.
Proof.
  intros Hvalid Hreply w1 w2 w3 w4 w5. unfold after at 1.
  rewrite (handleBook_valid _ _ _ Hvalid).
  apply after_try_normal.
  rewrite run_bind. change (run (setLoading true) w) with (Normal (), w1).
  cbv beta iota.
  rewrite run_bind, (run_bookRooms_ok _ _ _ _ Hreply).
  fold w2. cbv beta iota.
  rewrite run_bind.
  change (run (showMessage (booking_message response) success) w2)
    with (Normal (), w3).
  cbv beta iota.
  rewrite run_bind, run_fetchRooms. fold w4. cbv beta iota.
  subst w5. by destruct (has_room_paths response).
Qed.
End Booking.

(** ** Timers *)

Section Timers.
Context `{JsEngine}.

Lemma filter_all {A} (P : A → Prop) `{!∀ x, Decision (P x)} (l : list A) :
  Forall P l → filter P l = l.
Proof.
  induction 1 as [|x l Hx _ IH]; [done|].
  by rewrite filter_cons_True, IH.
Qed.

Lemma elapse_quiet d w :
  quiet d w →
  elapse d w
  = {| state := state w; now := (now w + d)%N; timers := timers w;
       log := log w |}.
Proof.
  intros Hq. unfold elapse. rewrite (filter_all _ _ Hq).
  rewrite bool_decide_eq_false_2; [done|].
  rewrite Exists_exists. intros (due & Hin & Hle).
  unfold quiet in Hq. rewrite Forall_forall in Hq.
  specialize (Hq due Hin). lia.
Qed.

(** Once a timer has fallen due the message is empty. *)
Lemma elapse_due d w due :
  due ∈ timers w → (due ≤ now w + d)%N → message (state (elapse d w)) = "".
Proof.
  intros Hin Hle. unfold elapse; simpl.
  rewrite bool_decide_eq_true_2; [done|].
  apply Exists_exists. eauto.
Qed.

Lemma run_getRooms_ok server response w :
  outcome (rooms_reply server)
  = Responded (Response_ok (Decoded response)) →
  run (api.getRooms server) w
  = (Normal response,
     elapse (latency (rooms_reply server)) (record (EFetch GET_rooms) w)).
Proof.
  intros Hreply. unfold api.getRooms. rewrite run_bind.
  unfold run at 1, fetch. by rewrite Hreply.
Qed.

(** A refetch that succeeds while no timer falls due leaves the message
    as it is. *)
Lemma fetchRooms_ok_message server response w :
  outcome (rooms_reply server)
  = Responded (Response_ok (Decoded response)) →
  quiet (latency (rooms_reply server)) w →
  message (state (after (fetchRooms server) w)) = message (state w)
  ∧ messageType (state (after (fetchRooms server) w))
    = messageType (state w).
Proof.
  intros Hreply Hq. unfold fetchRooms.
  change (setLoading false) with (set (Loading false)).
  erewrite after_try_normal; cycle 1.
  { rewrite run_bind.
    change (run (setLoading true) w)
      with (Normal (), after (setLoading true) w).
    cbv beta iota. rewrite run_bind, (run_getRooms_ok _ _ _ Hreply).
    cbv beta iota. rewrite elapse_quiet by exact Hq. reflexivity. }
  done.
Qed.
End Timers.

(** The events of [handleBook] when the booking call succeeds. *)
Lemma handleBook_success_emits `{JsEngine}
    (server : Server) w num (response : BookingResponse.t) :
  valid_input w num →
  outcome (book_reply server num None)
  = Responded (Response_ok (Decoded response)) →
  emits [ESet (Loading true); EFetch (POST_book num None);
         ESet (Message (booking_message response));
         ESet (MessageType_ success); ESetTimeout 3000;
         ESet (Loading true); EFetch GET_rooms]
        (handleBook server) w.
Proof.
  intros Hvalid Hreply.
  unfold emits, after. rewrite (handleBook_valid _ _ _ Hvalid).
  apply emits_try.
  - apply (emits_bind_normal [ESet (Loading true)]
             [EFetch (POST_book num None);
              ESet (Message (booking_message response));
              ESet (MessageType_ success); ESetTimeout 3000;
              ESet (Loading true); EFetch GET_rooms]
             _ _ _ () (after (setLoading true) w)); [done..|].
    eapply (emits_bind_normal [EFetch (POST_book num None)]
             [ESet (Message (booking_message response));
              ESet (MessageType_ success);
              ESetTimeout 3000; ESet (Loading true); EFetch GET_rooms]);
      [by apply run_bookRooms_ok|done|].
    eapply (emits_bind_normal
             [ESet (Message (booking_message response));
              ESet (MessageType_ success); ESetTimeout 3000]
             [ESet (Loading true); EFetch GET_rooms]);
      [apply run_showMessage|done|].
    apply emits_bind_l; [apply fetchRooms_emits|].
    intros _ w1. destruct (has_room_paths response);
      [|apply (frame_refl _ _ log_frame)].
    apply (frame_bind log_frame); by intros; apply (frame_set _ _ log_frame).
  - intros. by apply (frame_showMessage log_frame).
  - intros. by apply (frame_set _ _ log_frame).
Qed.

(** C6.  When the input is valid and the booking call succeeds,
    [handleBook] shows the message
    "<response.message>. Travel time: <total_travel_time> minutes" of type
    success, and sends the request that refetches the registry after that,
    hence after the response has been received: its events begin with
    [setLoading(true)], the booking request, the three effects of
    [showMessage], [setLoading(true)] again and the request for the rooms.
    The message is on display from the moment the response arrives, when
    the refetch starts.  If the refetch succeeds and no timer falls due
    meanwhile, that message is the one on display when the action
    completes. *)
Theorem handleBook_success_message `{JsEngine}
    (server : Server) w num (response : BookingResponse.t) :
  valid_input w num →
  outcome (book_reply server num None)
  = Responded (Response_ok (Decoded response)) →
  let text :=
    BookingResponse.message response +:+ ". Travel time: "
      +:+ ToString_optional (BookingResponse.total_travel_time response)
      +:+ " minutes" in
  let w' := after (handleBook server) w in
  emits [ESet (Loading true); EFetch (POST_book num None);
         ESet (Message text); ESet (MessageType_ success); ESetTimeout 3000;
         ESet (Loading true); EFetch GET_rooms]
        (handleBook server) w
  ∧ (∃ shown,
       message (state shown) = text ∧ messageType (state shown) = success
       ∧ now shown = (now w + latency (book_reply server num None))%N
       ∧ w' = after (setLoading false)
                (if has_room_paths response
                 then after (setShowPathDialog true)
                        (after (setRoomPaths
                                  (default []
                                     (BookingResponse.room_paths response)))
                               (after (fetchRooms server) shown))
                 else after (fetchRooms server) shown))
  ∧ (∀ registry,
       outcome (rooms_reply server)
       = Responded (Response_ok (Decoded registry)) →
       (latency (rooms_reply server) < 3000)%N →
       quiet (latency (book_reply server num None)
              + latency (rooms_reply server)) w →
       message (state w') = text ∧ messageType (state w') = success).
Proof.
  intros Hvalid Hreply text w'. split; [|split].
  - by apply handleBook_success_emits.
  - eexists. split; [|split; [|split]];
      [| |
       |subst w'; apply (handleBook_success_after _ _ _ _ Hvalid Hreply)].
    all: unfold after; by rewrite run_showMessage.
  - intros registry Hrooms Hlat Hquiet. subst w'.
    rewrite (handleBook_success_after _ _ _ _ Hvalid Hreply).
    cbv zeta.
    set (w3 := after (showMessage (booking_message response) success) _).
    assert (Hq3 : quiet (latency (rooms_reply server)) w3).
    { unfold quiet in *. subst w3. unfold after. rewrite run_showMessage.
      simpl. apply Forall_app. split.
      - apply Forall_forall. intros due Hin.
        apply list_elem_of_filter in Hin as [_ Hin].
        rewrite Forall_forall in Hquiet. specialize (Hquiet due Hin). lia.
      - constructor; [lia|constructor]. }
    destruct (fetchRooms_ok_message _ _ _ Hrooms Hq3) as [Hm Ht].
    assert (message (state w3) = text ∧ messageType (state w3) = success)
      as [Hm3 Ht3].
    { subst w3. unfold after. by rewrite run_showMessage. }
    destruct (has_room_paths response); simpl; by rewrite ?Hm, ?Ht.
Qed.

(** C10.  When the booking response has no [total_travel_time], the
    success message [handleBook] shows reads
    "<response.message>. Travel time: undefined minutes": the hole of the
    template is filled with the text of [undefined]. *)
Theorem handleBook_travel_time_undefined `{JsEngine}
    (server : Server) w num (response : BookingResponse.t) :
  valid_input w num →
  outcome (book_reply server num None)
  = Responded (Response_ok (Decoded response)) →
  BookingResponse.total_travel_time response = None →
  booking_message response
  = BookingResponse.message response +:+ ". Travel time: undefined minutes"
  ∧ emits [ESet (Loading true); EFetch (POST_book num None);
           ESet (Message (BookingResponse.message response
                          +:+ ". Travel time: undefined minutes"));
           ESet (MessageType_ success)]
          (handleBook server) w.
Proof.
  intros Hvalid Hreply Habsent.
  assert (Htext : booking_message response
                  = BookingResponse.message response
                    +:+ ". Travel time: undefined minutes").
  { unfold booking_message. by rewrite Habsent. }
  split; [done|]. rewrite <- Htext.
  destruct (handleBook_success_emits _ _ _ _ Hvalid Hreply) as [rest Hlog].
  exists ([ESetTimeout 3000; ESet (Loading true); EFetch GET_rooms] ++ rest).
  by rewrite Hlog.
Qed.

(** ** The path dialog *)

Lemma handleBook_invalid `{JsEngine} (server : Server) w :
  invalid_input w →
  run (handleBook server) w
  = run (showMessage "Please enter a number between 1 and 5" error) w.
Proof.
  unfold invalid_input, handleBook. rewrite run_bind. simpl.
  destruct (parseInt (numRooms (state w))) as [num|]; [|done].
  intros Hrange.
  assert ((num <? 1) || (num >? 5) = true) as ->; [|done].
  rewrite Z.gtb_ltb. apply orb_true_iff.
  destruct Hrange; [left|right]; apply Z.ltb_lt; lia.
Qed.

Lemma has_room_paths_true `{JsEngine} (response : BookingResponse.t) paths :
  BookingResponse.room_paths response = Some paths → paths ≠ [] →
  has_room_paths response = true.
Proof.
  intros Hpaths Hne. unfold has_room_paths. rewrite Hpaths.
  apply bool_decide_eq_true_2. destruct paths; [done|simpl; lia].
Qed.

Lemma handleBook_failure_same_dialog `{JsEngine} (server : Server) w num :
  valid_input w num → booking_fails server num →
  same_dialog w (after (handleBook server) w).
Proof.
  intros Hvalid Hfails. unfold after. rewrite (handleBook_valid _ _ _ Hvalid).
  apply (frame_try dialog_frame).
  - apply (frame_bind dialog_frame);
      [by apply (frame_set _ _ dialog_frame)|]. intros _ w1 _.
    apply (frame_bind dialog_frame); [apply (frame_bookRooms dialog_frame)|].
    intros response w2 Hrun. apply run_bookRooms_normal in Hrun.
    by destruct (Hfails response).
  - intros. by apply (frame_showMessage dialog_frame).
  - intros. by apply (frame_set _ _ dialog_frame).
Qed.

Lemma handleBook_no_paths_same_dialog `{JsEngine}
    (server : Server) w num (response : BookingResponse.t) :
  valid_input w num →
  outcome (book_reply server num None)
  = Responded (Response_ok (Decoded response)) →
  has_room_paths response = false →
  same_dialog w (after (handleBook server) w).
Proof.
  intros Hvalid Hreply Hnone.
  rewrite (handleBook_success_after _ _ _ _ Hvalid Hreply). cbv zeta.
  rewrite Hnone.
  repeat (eapply (frame_trans _ _ dialog_frame);
          [|first [by apply (frame_set _ _ dialog_frame)
                  |by apply (frame_fetchRooms dialog_frame)
                  |by apply (frame_showMessage dialog_frame)
                  |apply (frame_elapse _ _ dialog_frame)
                  |apply (frame_record _ _ dialog_frame)]]).
  apply (frame_refl _ _ dialog_frame).
Qed.

(** C4.  A booking call that succeeds with a present, non-empty
    [room_paths] opens the dialog on exactly that sequence, whatever the
    dialog held before; a booking call that fails, an input that is
    rejected, a reset and a random occupancy leave both dialog cells as
    they were, and so does a booking call that succeeds without paths. *)
Theorem dialog_follows_booked_paths `{JsEngine} (server : Server) w :
  (∀ num response paths,
     valid_input w num →
     outcome (book_reply server num None)
     = Responded (Response_ok (Decoded response)) →
     BookingResponse.room_paths response = Some paths → paths ≠ [] →
     showPathDialog (state (after (handleBook server) w)) = true
     ∧ roomPaths (state (after (handleBook server) w)) = paths)
  ∧ (∀ num, valid_input w num → booking_fails server num →
       same_dialog w (after (handleBook server) w))
  ∧ (invalid_input w → same_dialog w (after (handleBook server) w))
  ∧ (∀ num response,
       valid_input w num →
       outcome (book_reply server num None)
       = Responded (Response_ok (Decoded response)) →
       has_room_paths response = false →
       same_dialog w (after (handleBook server) w))
  ∧ same_dialog w (after (handleReset server) w)
  ∧ same_dialog w (after (handleRandom server) w).
Proof.
  split; [|split; [|split; [|split; [|split]]]].
  - intros num response paths Hvalid Hreply Hpaths Hne.
    rewrite (handleBook_success_after _ _ _ _ Hvalid Hreply). cbv zeta.
    rewrite (has_room_paths_true _ _ Hpaths Hne). simpl.
    by rewrite Hpaths.
  - intros num. apply handleBook_failure_same_dialog.
  - intros Hinvalid. unfold after. rewrite (handleBook_invalid _ _ Hinvalid).
    by apply (frame_showMessage dialog_frame).
  - intros num response. apply handleBook_no_paths_same_dialog.
  - by apply (frame_handleReset dialog_frame).
  - by apply (frame_handleRandom dialog_frame).
Qed.

(** ** The message timer *)

(** C2, as the code has it.  [showMessage] never cancels a timer: each call
    registers one more.  With message A shown at time [t] and message B
    shown [d1 < 3000] later, both timers are pending after B is shown; B is
    on display before [t + 3000] if no older timer falls due; from
    [t + 3000] on, when the timer of A has run, the message is empty. *)
Theorem message_timers_are_never_cancelled `{JsEngine}
    w A tA B tB (d1 d2 : N) :
  (d1 < 3000)%N →
  let wA := after (showMessage A tA) w in
  let wB := after (showMessage B tB) (elapse d1 wA) in
  timers wB
  = filter (λ due, (now w + d1 < due)%N) (timers w)
      ++ [(now w + 3000)%N; (now w + d1 + 3000)%N]
  ∧ ((d1 + d2 < 3000)%N → quiet (d1 + d2) w →
       message (state (elapse d2 wB)) = B)
  ∧ ((3000 ≤ d1 + d2)%N → message (state (elapse d2 wB)) = "").
Proof.
  intros Hd1 wA wB.
  assert (Htimers : timers wB
                    = filter (λ due, (now w + d1 < due)%N) (timers w)
                        ++ [(now w + 3000)%N; (now w + d1 + 3000)%N]).
  { subst wB wA. unfold after. rewrite !run_showMessage. simpl.
    rewrite filter_app, filter_cons_True, filter_nil by lia.
    by rewrite <- app_assoc. }
  assert (Hnow : now wB = (now w + d1)%N).
  { subst wB wA. unfold after. by rewrite !run_showMessage. }
  split; [done|split].
  - intros Hd2 Hquiet. rewrite elapse_quiet.
    + subst wB. unfold after. by rewrite run_showMessage.
    + unfold quiet in *. rewrite Htimers, Hnow. apply Forall_app. split.
      * apply Forall_forall. intros due Hin.
        apply list_elem_of_filter in Hin as [_ Hin].
        rewrite Forall_forall in Hquiet. specialize (Hquiet due Hin). lia.
      * repeat constructor; lia.
  - intros Hd2. apply (elapse_due _ _ (now w + 3000)%N).
    + rewrite Htimers. apply elem_of_app. right. by left.
    + rewrite Hnow. lia.
Qed.

(** ** Error texts of the service wrapper *)

(** C5, as the code has it.  On a response that is not ok, [getRooms],
    [resetBookings] and [generateRandomOccupancy] throw their fixed text
    whatever the body holds.  [bookRooms] decodes the body: when it is a
    value other than [null], the text is the [detail] field converted to a
    string if that field is truthy, and "Failed to book rooms" if the field
    is absent or falsy (an empty string among others); a body that does not
    decode, or that is [null], makes the call throw the error of the
    engine instead. *)
Theorem error_text_by_endpoint `{JsEngine} (server : Server) w :
  (∀ body, outcome (rooms_reply server) = Responded (Response_not_ok body) →
     (run (api.getRooms server) w).1
     = Throw (Error.new "Failed to fetch rooms"))
  ∧ (∀ body, outcome (reset_reply server) = Responded (Response_not_ok body) →
       (run (api.resetBookings server) w).1
       = Throw (Error.new "Failed to reset bookings"))
  ∧ (∀ pct body,
       outcome (random_occupancy_reply server pct)
       = Responded (Response_not_ok body) →
       (run (api.generateRandomOccupancy server pct) w).1
       = Throw (Error.new "Failed to generate random occupancy"))
  ∧ (∀ num guest error,
       outcome (book_reply server num guest)
       = Responded (Response_not_ok (Decoded error)) →
       error ≠ JsNull →
       (∀ detail, get_property error "detail" = Some detail →
          ToBoolean detail = true →
          (run (api.bookRooms server num guest) w).1
          = Throw (Error.new (ToString detail)))
       ∧ (∀ text, get_property error "detail" = Some (JsString text) →
            text ≠ ""%string →
            (run (api.bookRooms server num guest) w).1
            = Throw (Error.new text))
       ∧ (∀ detail, get_property error "detail" = Some detail →
            ToBoolean detail = false →
            (run (api.bookRooms server num guest) w).1
            = Throw (Error.new "Failed to book rooms"))
       ∧ (get_property error "detail" = None →
            (run (api.bookRooms server num guest) w).1
            = Throw (Error.new "Failed to book rooms")))
  ∧ (∀ num guest m,
       outcome (book_reply server num guest)
       = Responded (Response_not_ok (SyntaxError m)) →
       (run (api.bookRooms server num guest) w).1 = Throw (Error.new m))
  ∧ (∀ num guest,
       outcome (book_reply server num guest)
       = Responded (Response_not_ok (Decoded JsNull)) →
       (run (api.bookRooms server num guest) w).1
       = Throw (Error.new (TypeError_null_property "detail"))).
Proof.
  split; [|split; [|split; [|split; [|split]]]].
  - intros body Hreply. unfold api.getRooms. rewrite run_bind.
    unfold run at 2, fetch. by rewrite Hreply.
  - intros body Hreply. unfold api.resetBookings. rewrite run_bind.
    unfold run at 2, fetch. by rewrite Hreply.
  - intros pct body Hreply. unfold api.generateRandomOccupancy.
    rewrite run_bind. unfold run at 2, fetch. by rewrite Hreply.
  - intros num guest error Hreply Hnull.
    assert (Hrun : (run (api.bookRooms server num guest) w).1
                   = Throw (Error.new (detail_or error "Failed to book rooms"))).
    { unfold api.bookRooms. rewrite run_bind. unfold run at 2, fetch.
      rewrite Hreply. by destruct error. }
    rewrite Hrun. unfold detail_or. split; [|split; [|split]].
    + by intros detail -> ->.
    + intros text -> Htext. simpl.
      by rewrite bool_decide_eq_false_2.
    + by intros detail -> ->.
    + by intros ->.
  - intros num guest m Hreply. unfold api.bookRooms. rewrite run_bind.
    unfold run at 2, fetch. by rewrite Hreply.
  - intros num guest Hreply. unfold api.bookRooms. rewrite run_bind.
    unfold run at 2, fetch. by rewrite Hreply.
Qed.

(** ** The model at work *)

Section Examples.
Local Existing Instance integer_engine.

(** C1 fails as stated: with [loading] true, [handleReset] sends its
    request and shows its message. *)
Lemma handleReset_runs_while_busy :
  loading (state busy_world) = true
  ∧ log busy_world = []
  ∧ take 2 (log (after (handleReset sample_server) busy_world))
    = [ESet (Loading true); EFetch POST_reset]
  ∧ message (state busy_world) = ""%string
  ∧ message (state (after (handleReset sample_server) busy_world))
    = "All bookings have been reset"%string
  ∧ run (handleReset sample_server) busy_world ≠ (Normal (), busy_world).
Proof.
  repeat split; by vm_compute.
Qed.

(** C2 fails as stated: at time 3500, after the deadline of A and before
    that of B, the message on display is empty, not "B". *)
Lemma second_message_cleared_by_first_timer :
  now (elapse 2500 two_messages) = 3500%N
  ∧ message (state two_messages) = "B"%string
  ∧ message (state (elapse 2500 two_messages)) = ""%string
  ∧ message (state (elapse 2500 two_messages)) ≠ "B"%string.
Proof. repeat split; by vm_compute. Qed.

(** C5 fails as stated: the [detail] field is present, and the text of
    the error is the fallback, not the field. *)
Lemma empty_detail_falls_back :
  get_property empty_detail "detail" = Some (JsString "")
  ∧ (run (api.bookRooms (failing_server empty_detail) 2 None)
         initial_world).1
    = Throw (Error.new "Failed to book rooms")
  ∧ (run (api.bookRooms (failing_server empty_detail) 2 None)
         initial_world).1
    ≠ Throw (Error.new "").
Proof. repeat split; by vm_compute. Qed.

(** [parseInt] reads the longest numeric prefix after leading white space,
    so an input need not be a numeral to parse. *)
Example parseInt_reads_a_prefix :
  parseInt "3abc" = Some 3 ∧ parseInt "2.5" = Some 2
  ∧ parseInt " 4" = Some 4 ∧ parseInt "0x3" = Some 3
  ∧ parseInt "abc" = None ∧ parseInt "" = None ∧ parseInt "-" = None.
Proof. repeat split; reflexivity. Qed.

Lemma valid_input_2 : valid_input (with_input "2" initial_world) 2.
Proof. split; [reflexivity|lia]. Defined.

Lemma initializeRooms_layout_witness :
  (1 ≤ 3 ≤ 9 ∧ 0 ≤ 4 ≤ 9)
  ∧ size (filter (λ kr : Z * RoomData, floor kr.2 = 3) roomsMap) = 10%nat
  ∧ roomsMap !! 305
    = Some {| room_number := 305; floor := 3; position := 4;
              status := available; guest_id := None |}
  ∧ roomsMap !! 1007
    = Some {| room_number := 1007; floor := 10; position := 6;
              status := available; guest_id := None |}.
Proof.
  destruct initializeRooms_layout
    as (_ & _ & _ & Hfloors & _ & Hfloor10).
  split; [lia|].
  destruct (Hfloors 3 ltac:(lia)) as [Hsize Hrooms].
  split; [exact Hsize|]. split.
  - apply (Hrooms 4). lia.
  - apply (Hfloor10 6). lia.
Defined.

Lemma loading_brackets_every_action_witness :
  valid_input (with_input "2" initial_world) 2
  ∧ emits [ESet (Loading true); EFetch (POST_book 2 None)]
          (handleBook sample_server) (with_input "2" initial_world)
  ∧ loading (state (after (handleBook sample_server)
                          (with_input "2" initial_world))) = false.
Proof.
  split; [exact valid_input_2|].
  destruct (loading_brackets_every_action sample_server
              (with_input "2" initial_world)) as (_ & _ & Hbook).
  destruct (Hbook 2 valid_input_2) as (Hemits & _ & Hidle).
  split; [exact Hemits|exact Hidle].
Defined.

Lemma busy_guard_is_the_disabled_trigger_witness :
  loading (state busy_world) = true
  ∧ (∀ b, run (click sample_server b) busy_world = (Normal (), busy_world))
  ∧ sent POST_reset busy_world (after (handleReset sample_server) busy_world).
Proof.
  split; [reflexivity|].
  destruct (busy_guard_is_the_disabled_trigger sample_server busy_world
              eq_refl) as (Hclick & Hreset & _).
  split; [exact Hclick|exact Hreset].
Defined.

Lemma handleBook_rejects_invalid_input_witness :
  let rejected input :=
    invalid_input (with_input input initial_world)
    ∧ shows_validation_error_only
        (with_input input initial_world)
        (after (handleBook sample_server) (with_input input initial_world))
  in
  rejected "0"%string ∧ rejected "6"%string ∧ rejected "-1"%string
  ∧ rejected "abc"%string.
Proof.
  assert (H0 : invalid_input (with_input "0" initial_world))
    by (vm_compute; auto).
  assert (H6 : invalid_input (with_input "6" initial_world))
    by (vm_compute; auto).
  assert (Hneg : invalid_input (with_input "-1" initial_world))
    by (vm_compute; auto).
  assert (Habc : invalid_input (with_input "abc" initial_world))
    by exact I.
  pose proof (handleBook_rejects_invalid_input sample_server _ H0)
    as [_ R0].
  pose proof (handleBook_rejects_invalid_input sample_server _ H6)
    as [_ R6].
  pose proof (handleBook_rejects_invalid_input sample_server _ Hneg)
    as [_ Rneg].
  pose proof (handleBook_rejects_invalid_input sample_server _ Habc)
    as [_ Rabc].
  exact (conj (conj H0 R0)
           (conj (conj H6 R6) (conj (conj Hneg Rneg) (conj Habc Rabc)))).
Defined.

Lemma dialog_follows_booked_paths_witness :
  valid_input (with_input "2" initial_world) 2
  ∧ showPathDialog (state (after (handleBook sample_server)
                                 (with_input "2" initial_world))) = true
  ∧ roomPaths (state (after (handleBook sample_server)
                            (with_input "2" initial_world)))
    = [sample_path]
  ∧ same_dialog (with_input "2" initial_world)
      (after (handleBook (failing_server empty_detail))
             (with_input "2" initial_world)).
Proof.
  split; [exact valid_input_2|].
  destruct (dialog_follows_booked_paths sample_server
              (with_input "2" initial_world)) as (Hopen & _).
  destruct (Hopen 2 sample_booking [sample_path] valid_input_2
              eq_refl eq_refl ltac:(discriminate)) as [Hshow Hpaths].
  split; [exact Hshow|]. split; [exact Hpaths|].
  destruct (dialog_follows_booked_paths (failing_server empty_detail)
              (with_input "2" initial_world)) as (_ & Hfail & _).
  apply (Hfail 2 valid_input_2). intros response. discriminate.
Defined.

Lemma handleBook_success_message_witness :
  valid_input (with_input "2" initial_world) 2
  ∧ emits [ESet (Loading true); EFetch (POST_book 2 None);
           ESet (Message "Booked 2 rooms. Travel time: 7 minutes");
           ESet (MessageType_ success); ESetTimeout 3000;
           ESet (Loading true); EFetch GET_rooms]
          (handleBook sample_server) (with_input "2" initial_world)
  ∧ message (state (after (handleBook sample_server)
                          (with_input "2" initial_world)))
    = "Booked 2 rooms. Travel time: 7 minutes"%string.
Proof.
  split; [exact valid_input_2|].
  destruct (handleBook_success_message sample_server
              (with_input "2" initial_world) 2 sample_booking
              valid_input_2 eq_refl) as (Hemits & _ & Hshown).
  split; [exact Hemits|].
  apply (Hshown sample_rooms eq_refl); [reflexivity|constructor].
Defined.

Lemma handleBook_travel_time_undefined_witness :
  valid_input (with_input "2" initial_world) 2
  ∧ BookingResponse.total_travel_time untimed_booking = None
  ∧ emits [ESet (Loading true); EFetch (POST_book 2 None);
           ESet (Message "Booked 1 room. Travel time: undefined minutes");
           ESet (MessageType_ success)]
          (handleBook untimed_server) (with_input "2" initial_world).
Proof.
  split; [exact valid_input_2|]. split; [reflexivity|].
  apply (handleBook_travel_time_undefined untimed_server
           (with_input "2" initial_world) 2 untimed_booking
           valid_input_2 eq_refl eq_refl).
Defined.

Lemma message_timers_are_never_cancelled_witness :
  (1000 < 3000)%N
  ∧ timers two_messages = [3000%N; 4000%N]
  ∧ message (state (elapse 500 two_messages)) = "B"%string
  ∧ message (state (elapse 2500 two_messages)) = ""%string.
Proof.
  split; [reflexivity|].
  destruct (message_timers_are_never_cancelled initial_world
              "A" success "B" success 1000 500 eq_refl)
    as (Htimers & Hbefore & _).
  destruct (message_timers_are_never_cancelled initial_world
              "A" success "B" success 1000 2500 eq_refl)
    as (_ & _ & Hafter).
  split; [exact Htimers|]. split.
  - apply Hbefore; [reflexivity|constructor].
  - apply Hafter. discriminate.
Defined.

Lemma error_text_by_endpoint_witness :
  let body : JsValue number :=
    JsObject [("detail"%string, JsString "Not enough rooms available")] in
  (run (api.getRooms (failing_server body)) initial_world).1
  = Throw (Error.new "Failed to fetch rooms")
  ∧ (run (api.bookRooms (failing_server body) 2 None) initial_world).1
    = Throw (Error.new "Not enough rooms available")
  ∧ (run (api.bookRooms (failing_server empty_detail) 2 None)
         initial_world).1
    = Throw (Error.new "Failed to book rooms").
Proof.
  intros body.
  destruct (error_text_by_endpoint (failing_server body) initial_world)
    as (Hrooms & _ & _ & Hbook & _).
  split; [by apply (Hrooms (Decoded body))|]. split.
  - destruct (Hbook 2 None body eq_refl ltac:(discriminate))
      as (_ & Htext & _).
    apply (Htext "Not enough rooms available"%string eq_refl).
    discriminate.
  - destruct (error_text_by_endpoint (failing_server empty_detail)
                initial_world) as (_ & _ & _ & Hempty & _).
    destruct (Hempty 2 None empty_detail eq_refl ltac:(discriminate))
      as (_ & _ & Hfalsy & _).
    by apply (Hfalsy (JsString "")).
Defined.
End Examples.

(** ** Numerals as input *)

Lemma trim_start_app (spaces s : string) :
  trim_start spaces = ""%string → trim_start (spaces +:+ s) = trim_start s.
Proof.
  induction spaces as [|c spaces IH]; simpl; [done|].
  destruct (is_StrWhiteSpaceChar c); [exact IH|discriminate].
Qed.

Lemma pretty_N_go_app (x : N) (s tail : string) :
  pretty_N_go x s +:+ tail = pretty_N_go x (s +:+ tail).
Proof.
  revert s. induction (N.lt_wf_0 x) as [x _ IH]. intros s.
  destruct (decide (x = 0)%N) as [->|Hx]; [done|].
  rewrite (pretty_N_go_step x s), (pretty_N_go_step x (s +:+ tail)) by lia.
  rewrite IH; [done|apply N.div_lt; lia].
Qed.

Ltac small_N_cases y :=
  let Hc := fresh "Hc" in
  assert (y = 0 ∨ y = 1 ∨ y = 2 ∨ y = 3 ∨ y = 4 ∨ y = 5 ∨ y = 6 ∨ y = 7
          ∨ y = 8 ∨ y = 9)%N as Hc by lia;
  repeat (destruct Hc as [Hc|Hc]); subst y.

Lemma digit_value_pretty_N_char (y : N) :
  (y < 10)%N → digit_value (pretty_N_char y) = Some (Z.of_N y).
Proof. intros Hy. small_N_cases y; reflexivity. Qed.

(** Read back in radix 10, the digits of [x] give [x]. *)
Lemma digits_prefix_pretty_N_go (x : N) (s : string) :
  (0 < x)%N →
  digits_prefix 10 (pretty_N_go x s) None
  = digits_prefix 10 s (Some (Z.of_N x)).
Proof.
  revert s. induction (N.lt_wf_0 x) as [x _ IH]. intros s Hx.
  rewrite pretty_N_go_step by done.
  assert (Hstep : ∀ acc,
            default 0 acc = Z.of_N (x `div` 10) →
            digits_prefix 10 (String (pretty_N_char (x `mod` 10)) s) acc
            = digits_prefix 10 s (Some (Z.of_N x))).
  { intros acc Hacc. simpl.
    rewrite digit_value_pretty_N_char by (apply N.mod_lt; lia).
    assert ((Z.of_N (x `mod` 10) <? 10) = true) as ->.
    { apply Z.ltb_lt. pose proof (N.mod_lt x 10). lia. }
    do 2 f_equal. rewrite Hacc. pose proof (N.div_mod x 10). lia. }
  destruct (decide (x `div` 10 = 0)%N) as [Hdiv|Hdiv].
  - rewrite Hdiv, pretty_N_go_0. apply Hstep. by rewrite Hdiv.
  - rewrite IH; [by apply Hstep|apply N.div_lt; lia|by apply N.neq_0_lt_0].
Qed.

(** The numeral of a positive number begins with a digit from 1 to 9. *)
Lemma pretty_N_go_head (x : N) (s : string) :
  (0 < x)%N →
  ∃ c rest, pretty_N_go x s = String c rest ∧ 49 ≤ char_code c ≤ 57.
Proof.
  revert s. induction (N.lt_wf_0 x) as [x _ IH]. intros s Hx.
  rewrite pretty_N_go_step by done.
  destruct (decide (x `div` 10 = 0)%N) as [Hdiv|Hdiv].
  - rewrite Hdiv, pretty_N_go_0. eexists _, _. split; [done|].
    assert (x < 10)%N as Hsmall.
    { destruct (decide (x < 10)%N); [done|].
      assert (1 ≤ x `div` 10)%N; [|lia].
      apply N.div_le_lower_bound; lia. }
    rewrite N.mod_small by done. clear IH Hdiv.
    small_N_cases x; first [lia|by vm_compute].
  - apply IH; [apply N.div_lt; lia|by apply N.neq_0_lt_0].
Qed.

Ltac ascii_cases c :=
  destruct c as [[|] [|] [|] [|] [|] [|] [|] [|]].

Lemma parseInt_head_1_9 (c : ascii) (rest : string) (m : Z) :
  49 ≤ char_code c ≤ 57 →
  digits_prefix 10 (String c rest) None = Some m →
  parseInt (String c rest) = Some m
  ∧ parseInt (String "-" (String c rest)) = Some (- m).
Proof.
  intros Hc Hm.
  ascii_cases c; try (exfalso; revert Hc; by vm_compute; intros [? ?]).
  all: unfold parseInt; cbn [trim_start];
    repeat match goal with
      | |- context [is_StrWhiteSpaceChar ?a] =>
          let b := eval vm_compute in (is_StrWhiteSpaceChar a) in
          change (is_StrWhiteSpaceChar a) with b
      end;
    cbv beta iota zeta; rewrite Hm; split; f_equal; lia.
Qed.

Lemma parseInt_zero (tail : string) :
  ends_numeral 0 tail → parseInt (String "0" tail) = Some 0.
Proof.
  destruct tail as [|c rest]; [done|]. intros [Hdigit Hx].
  destruct (Hx eq_refl) as [Hx1 Hx2]. revert Hdigit Hx1 Hx2. clear Hx.
  ascii_cases c; by vm_compute.
Qed.

Lemma digits_prefix_stops (z v : Z) (tail : string) :
  ends_numeral z tail → digits_prefix 10 tail (Some v) = Some v.
Proof.
  destruct tail as [|c rest]; [done|]. intros [Hdigit _]. simpl.
  unfold is_decimal_digit in Hdigit.
  destruct (digit_value c) as [d|]; [|done]. by rewrite Hdigit.
Qed.

Lemma parseInt_skips_white_space (spaces s : string) :
  trim_start spaces = ""%string → parseInt (spaces +:+ s) = parseInt s.
Proof. intros Hs. unfold parseInt. by rewrite trim_start_app. Qed.

(** [parseInt] reads back the decimal numeral of every integer, after white
    space and before anything that does not continue the numeral. *)
Lemma parseInt_numeral (z : Z) (spaces tail : string) :
  trim_start spaces = ""%string → ends_numeral z tail →
  parseInt (spaces +:+ pretty z +:+ tail) = Some z.
Proof.
  intros Hspaces Htail. rewrite parseInt_skips_white_space by done.
  destruct z as [|p|p].
  - by apply parseInt_zero.
  - change (pretty (Z.pos p)) with (pretty_N_go (N.pos p) "").
    rewrite pretty_N_go_app. change (""%string +:+ tail) with tail.
    destruct (pretty_N_go_head (N.pos p) tail) as (c & rest & Heq & Hc);
      [lia|].
    pose proof (digits_prefix_pretty_N_go (N.pos p) tail ltac:(lia)) as Hd.
    rewrite (digits_prefix_stops _ _ _ Htail), Heq in Hd.
    rewrite Heq. by apply parseInt_head_1_9.
  - change (pretty (Z.neg p)) with ("-" +:+ pretty_N_go (N.pos p) "").
    change (("-" +:+ pretty_N_go (N.pos p) "") +:+ tail)
      with (String "-" (pretty_N_go (N.pos p) "" +:+ tail)).
    rewrite pretty_N_go_app. change (""%string +:+ tail) with tail.
    destruct (pretty_N_go_head (N.pos p) tail) as (c & rest & Heq & Hc);
      [lia|].
    pose proof (digits_prefix_pretty_N_go (N.pos p) tail ltac:(lia)) as Hd.
    rewrite (digits_prefix_stops (Z.neg p) _ _ Htail), Heq in Hd.
    rewrite Heq. by apply (parseInt_head_1_9 c rest (Z.pos p)).
Qed.

(** X1.  [handleBook] reads its input with [parseInt]: an input made of
    optional white space, the decimal numeral of an integer [z] and then
    nothing or text that does not continue the numeral (as in "2.5", "1e3"
    or "3 rooms") is taken for [z].  When [z] is in [1..5] the request for
    [z] rooms is sent; otherwise only the validation error is shown. *)
Theorem handleBook_reads_numeral `{JsEngine}
    (server : Server) w (z : Z) (spaces tail : string) :
  numRooms (state w) = spaces +:+ pretty z +:+ tail →
  trim_start spaces = ""%string →
  ends_numeral z tail →
  parseInt (numRooms (state w)) = Some z
  ∧ (1 ≤ z ≤ 5 → sent (POST_book z None) w (after (handleBook server) w))
  ∧ (¬ 1 ≤ z ≤ 5 →
       (run (handleBook server) w).1 = Normal ()
       ∧ shows_validation_error_only w (after (handleBook server) w)).
Proof.
  intros Hinput Hspaces Htail.
  assert (Hparse : parseInt (numRooms (state w)) = Some z).
  { rewrite Hinput. by apply parseInt_numeral. }
  split; [done|split].
  - intros Hrange.
    apply (emits_sent _ [ESet (Loading true)]), handleBook_emits.
    by split.
  - intros Hrange.
    assert (Hinvalid : invalid_input w).
    { unfold invalid_input. rewrite Hparse. lia. }
    unfold shows_validation_error_only, after.
    by rewrite (handleBook_invalid _ _ Hinvalid), run_showMessage.
Qed.

(** ** The service wrapper, call by call *)

Section Endpoints.
Context `{JsEngine} (server : Server).

(** A wrapper call sends its request, waits for the reply and does nothing
    else to the world, whatever the outcome. *)
Lemma after_plain_endpoint {A} request (reply : Reply A) generic w :
  after (plain_endpoint request reply generic) w
  = elapse (latency reply) (record (EFetch request) w).
Proof.
  unfold after, plain_endpoint. rewrite run_bind. unfold run at 2, fetch.
  by destruct (outcome reply) as [m|[[m|a]|body]].
Qed.

Lemma after_bookRooms num guest w :
  after (api.bookRooms server num guest) w
  = elapse (latency (book_reply server num guest))
           (record (EFetch (POST_book num guest)) w).
Proof.
  unfold after, api.bookRooms. rewrite run_bind. unfold run at 2, fetch.
  destruct (outcome (book_reply server num guest))
    as [m|[[m|a]|[m|error]]]; try done.
  by destruct error.
Qed.

Lemma plain_endpoint_outcome {A} request (reply : Reply A) generic w :
  (run (plain_endpoint request reply generic) w).1
  = match outcome reply with
    | NetworkError m => Throw (Error.new m)
    | Responded (Response_not_ok _) => Throw (Error.new generic)
    | Responded (Response_ok (SyntaxError m)) => Throw (Error.new m)
    | Responded (Response_ok (Decoded body)) => Normal body
    end.
Proof.
  unfold plain_endpoint. rewrite run_bind. unfold run at 2, fetch.
  by destruct (outcome reply) as [m|[[m|a]|body]].
Qed.

End Endpoints.


(** ** Actions that resolve and actions that are rejected *)

Section Actions.
Context `{JsEngine}.

Lemma elapse_registry d w : same_registry w (elapse d w).
Proof. unfold same_registry, elapse; simpl. by case_bool_decide. Qed.

Lemma elapse_input d w : same_input w (elapse d w).
Proof. unfold same_input, elapse; simpl. by case_bool_decide. Qed.

Lemma elapse_messageType d w :
  messageType (state (elapse d w)) = messageType (state w).
Proof. unfold elapse; simpl. by case_bool_decide. Qed.

(** Only [setRooms] and [setStatistics] touch the registry. *)
Lemma registry_frame : Frame (λ u, is_registry_update u = false) same_registry.
Proof.
  split; unfold same_registry.
  - done.
  - intros w1 w2 w3 [? ?] [? ?]. split; congruence.
  - intros [] w Hu; simpl in Hu; done.
  - done.
  - intros d w. apply elapse_registry.
  - done.
Qed.

(** Only [setNumRooms] touches the input. *)
Lemma input_frame : Frame (λ u, is_input_update u = false) same_input.
Proof.
  split; unfold same_input.
  - done.
  - intros w1 w2 w3 ? ?. congruence.
  - intros [] w Hu; simpl in Hu; done.
  - done.
  - intros d w. apply elapse_input.
  - done.
Qed.

Lemma run_rejects {A} (call : M A) exn w :
  rejects call exn → run call w = (Throw exn, after call w).
Proof.
  intros Hrej. specialize (Hrej w). unfold after.
  destruct (run call w) as [c w1]. simpl in *. by subst.
Qed.

Lemma after_try_throw body handler u w exn w1 :
  run body w = (Throw exn, w1) →
  after (try_catch_finally body handler (set u)) w
  = after (set u) (after (handler exn) w1).
Proof.
  unfold after, run, try_catch_finally. intros ->.
  by destruct (handler exn w1) as [c w2].
Qed.

(** A rejected call: the catch clause shows the text of the error, the
    finalizer runs, and the continuation of the call does not. *)
Lemma after_action_rejected {A} (call : M A) (k : A → M unit) exn w :
  rejects call exn →
  after (action call k) w
  = after (setLoading false)
      (after (showMessage (Error.message exn) error)
         (after call (after (setLoading true) w))).
Proof.
  intros Hrej. unfold action.
  apply (after_try_throw _ (λ exn, showMessage (Error.message exn) error)).
  rewrite run_bind.
  change (run (setLoading true) w)
    with (Normal (), after (setLoading true) w).
  cbv beta iota. rewrite run_bind. by rewrite (run_rejects _ _ _ Hrej).
Qed.

(** A resolved call whose continuation returns: the finalizer runs after
    the continuation. *)
Lemma after_action_resolved {A} (call : M A) (k : A → M unit) r w w2 :
  run call (after (setLoading true) w) = (Normal r, w2) →
  returns (k r) w2 →
  after (action call k) w = after (setLoading false) (after (k r) w2).
Proof.
  intros Hcall [[] Hk]. unfold action. apply after_try_normal.
  rewrite run_bind.
  change (run (setLoading true) w)
    with (Normal (), after (setLoading true) w).
  cbv beta iota. rewrite run_bind, Hcall. cbv beta iota.
  unfold after. destruct (run (k r) w2) as [c w3]. simpl in *. by subst.
Qed.

Lemma failed_with_action {A} (call : M A) (k : A → M unit)
    request (reply : Reply A) exn w :
  (∀ w0, after call w0 = elapse (latency reply) (record (EFetch request) w0)) →
  rejects call exn →
  failed_with request exn w (after (action call k) w).
Proof.
  intros Hafter Hrej. rewrite (after_action_rejected _ _ _ _ Hrej), Hafter.
  unfold failed_with, after. rewrite run_showMessage.
  repeat apply conj; try done.
  - apply (elapse_registry _
             (record (EFetch request) (after (setLoading true) w))).
  - apply (elapse_registry _
             (record (EFetch request) (after (setLoading true) w))).
  - apply (elapse_dialog _
             (record (EFetch request) (after (setLoading true) w))).
  - apply (elapse_dialog _
             (record (EFetch request) (after (setLoading true) w))).
  - simpl. by rewrite <- !app_assoc.
Qed.

Lemma returns_fetchRooms server w : returns (fetchRooms server) w.
Proof. exists (). by rewrite run_fetchRooms. Qed.

Lemma after_getRooms (server : Server) w :
  after (api.getRooms server) w
  = elapse (latency (rooms_reply server)) (record (EFetch GET_rooms) w).
Proof.
  apply (after_plain_endpoint GET_rooms (rooms_reply server)
           "Failed to fetch rooms").
Qed.

Lemma after_resetBookings (server : Server) w :
  after (api.resetBookings server) w
  = elapse (latency (reset_reply server)) (record (EFetch POST_reset) w).
Proof.
  apply (after_plain_endpoint POST_reset (reset_reply server)
           "Failed to reset bookings").
Qed.

Lemma after_generateRandomOccupancy (server : Server) pct w :
  after (api.generateRandomOccupancy server pct) w
  = elapse (latency (random_occupancy_reply server pct))
           (record (EFetch (POST_random_occupancy pct)) w).
Proof.
  apply (after_plain_endpoint (POST_random_occupancy pct)
           (random_occupancy_reply server pct)
           "Failed to generate random occupancy").
Qed.

(** The world a successful refetch leaves. *)
Lemma after_fetchRooms_ok (server : Server) registry w :
  outcome (rooms_reply server)
  = Responded (Response_ok (Decoded registry)) →
  after (fetchRooms server) w
  = after (setLoading false)
      (after (setStatistics
                {| Statistics.total_rooms :=
                     RoomStateResponse.total_rooms registry;
                   Statistics.available_rooms :=
                     RoomStateResponse.available_rooms registry;
                   Statistics.booked_rooms :=
                     RoomStateResponse.booked_rooms registry |})
         (after (setRooms (RoomStateResponse.rooms registry))
            (elapse (latency (rooms_reply server))
               (record (EFetch GET_rooms) (after (setLoading true) w))))).
Proof.
  intros Hreply. unfold fetchRooms.
  change (setLoading false) with (set (Loading false)).
  erewrite after_try_normal; [done|].
  rewrite run_bind.
  change (run (setLoading true) w)
    with (Normal (), after (setLoading true) w).
  cbv beta iota. rewrite run_bind, (run_getRooms_ok _ _ _ Hreply).
  reflexivity.
Qed.
End Actions.

(** ** The refetch *)

(** X3.  A refetch that succeeds replaces the registry wholesale: [rooms]
    and [statistics] become those of the response, whatever they were, the
    counts being taken from the response and not recomputed from the rooms.
    It shows no message, registers no timer, leaves the dialog and the
    input as they are and ends with [loading] false. *)
Theorem fetchRooms_replaces_registry `{JsEngine}
    (server : Server) (registry : RoomStateResponse.t) w :
  outcome (rooms_reply server)
  = Responded (Response_ok (Decoded registry)) →
  let w' := after (fetchRooms server) w in
  let counts :=
    {| Statistics.total_rooms := RoomStateResponse.total_rooms registry;
       Statistics.available_rooms :=
         RoomStateResponse.available_rooms registry;
       Statistics.booked_rooms := RoomStateResponse.booked_rooms registry |} in
  rooms (state w') = RoomStateResponse.rooms registry
  ∧ statistics (state w') = counts
  ∧ loading (state w') = false
  ∧ same_dialog w w'
  ∧ same_input w w'
  ∧ messageType (state w') = messageType (state w)
  ∧ timers w'
    = filter (λ due, (now w + latency (rooms_reply server) < due)%N)
             (timers w)
  ∧ log w'
    = log w ++ [ESet (Loading true); EFetch GET_rooms;
                ESet (Rooms (RoomStateResponse.rooms registry));
                ESet (Statistics_ counts); ESet (Loading false)].
Proof.
  intros Hreply w' counts. subst w'.
  rewrite (after_fetchRooms_ok _ _ _ Hreply).
  set (w1 := record (EFetch GET_rooms) (after (setLoading true) w)).
  repeat apply conj; try done.
  - apply (elapse_dialog _ w1).
  - apply (elapse_dialog _ w1).
  - apply (elapse_input _ w1).
  - apply (elapse_messageType _ w1).
  - simpl. by rewrite <- !app_assoc.
Qed.

(** X4.  A refetch whose call is rejected never throws: it shows the text
    of the error as an error message, leaves [rooms], [statistics] and the
    dialog as they were, and ends with [loading] false. *)
Theorem fetchRooms_rejected_keeps_registry `{JsEngine}
    (server : Server) (exn : Error.t) w :
  rejects (api.getRooms server) exn →
  (run (fetchRooms server) w).1 = Normal ()
  ∧ failed_with GET_rooms exn w (after (fetchRooms server) w).
Proof.
  intros Hrej. split; [by rewrite run_fetchRooms|].
  apply (failed_with_action (api.getRooms server) _ GET_rooms
           (rooms_reply server)); [|done].
  intros w0. apply after_getRooms.
Qed.

(** X5.  On mount the synthesized registry is installed and a fetch is
    started at once.  If the fetch succeeds the registry of the service
    replaces the synthesized one; if it is rejected the synthesized
    registry stays in place and the error is shown. *)
Theorem mount_installs_then_fetches `{JsEngine} (server : Server) w :
  (∀ registry,
     outcome (rooms_reply server)
     = Responded (Response_ok (Decoded registry)) →
     rooms (state (after (mount server) w))
     = RoomStateResponse.rooms registry
     ∧ loading (state (after (mount server) w)) = false)
  ∧ (∀ exn,
       rejects (api.getRooms server) exn →
       rooms (state (after (mount server) w)) = roomsMap
       ∧ statistics (state (after (mount server) w)) = statistics (state w)
       ∧ message (state (after (mount server) w)) = Error.message exn
       ∧ messageType (state (after (mount server) w)) = error
       ∧ loading (state (after (mount server) w)) = false).
Proof.
  assert (Hmount : after (mount server) w
                   = after (fetchRooms server) (after initializeRooms w)).
  { by apply (after_bind_normal initializeRooms (λ _, fetchRooms server)
               w () (after initializeRooms w)). }
  rewrite Hmount. split.
  - intros registry Hreply. by rewrite (after_fetchRooms_ok _ _ _ Hreply).
  - intros exn Hrej.
    destruct (failed_with_action (api.getRooms server)
                (λ response,
                   setRooms (RoomStateResponse.rooms response);;
                   setStatistics
                     {| Statistics.total_rooms :=
                          RoomStateResponse.total_rooms response;
                        Statistics.available_rooms :=
                          RoomStateResponse.available_rooms response;
                        Statistics.booked_rooms :=
                          RoomStateResponse.booked_rooms response |})
                GET_rooms (rooms_reply server) exn
                (after initializeRooms w) (after_getRooms server) Hrej)
      as (Hm & Ht & Hl & [Hr Hs] & _).
    by repeat apply conj.
Qed.

(** ** Rejected actions *)

(** X6.  When the call of an action is rejected, the action shows the text
    of the error as an error message and does nothing else: no refetch is
    sent, [rooms], [statistics] and the dialog stay as they were, and
    [loading] ends false.  This holds for reset, for random occupancy and
    for a booking with a valid input. *)
Theorem rejected_action_only_shows_the_error `{JsEngine} (server : Server) w :
  (∀ exn, rejects (api.resetBookings server) exn →
     failed_with POST_reset exn w (after (handleReset server) w))
  ∧ (∀ exn, rejects (api.generateRandomOccupancy server 30) exn →
       failed_with (POST_random_occupancy 30) exn w
                   (after (handleRandom server) w))
  ∧ (∀ num exn, valid_input w num →
       rejects (api.bookRooms server num None) exn →
       failed_with (POST_book num None) exn w (after (handleBook server) w)).
Proof.
  repeat apply conj.
  - intros exn Hrej.
    apply (failed_with_action (api.resetBookings server) _ POST_reset
             (reset_reply server)); [|done].
    intros w0. apply after_resetBookings.
  - intros exn Hrej.
    apply (failed_with_action (api.generateRandomOccupancy server 30) _
             (POST_random_occupancy 30) (random_occupancy_reply server 30));
      [|done].
    intros w0. apply after_generateRandomOccupancy.
  - intros num exn Hvalid Hrej. unfold after at 1.
    rewrite (handleBook_valid _ _ _ Hvalid).
    apply (failed_with_action (api.bookRooms server num None) _
             (POST_book num None) (book_reply server num None)); [|done].
    intros w0. apply after_bookRooms.
Qed.

(** ** Bookings, resets and random occupancy that go through *)

Section Resolved.
Context `{JsEngine} (server : Server).

Lemma run_plain_endpoint_ok {A} request (reply : Reply A) generic body w :
  outcome reply = Responded (Response_ok (Decoded body)) →
  run (plain_endpoint request reply generic) w
  = (Normal body, elapse (latency reply) (record (EFetch request) w)).
Proof.
  intros Hreply.
  pose proof (plain_endpoint_outcome request reply generic w) as Hout.
  pose proof (after_plain_endpoint request reply generic w) as Hafter.
  rewrite Hreply in Hout. unfold after in Hafter.
  destruct (run (plain_endpoint request reply generic) w) as [c w1].
  simpl in *. by subst.
Qed.

(** The events of an action of the shape of [handleReset] whose call
    resolves: the message, then the refetch. *)
Lemma resolved_action_emits {A} request (reply : Reply A) generic text body w :
  outcome reply = Responded (Response_ok (Decoded body)) →
  emits [ESet (Loading true); EFetch request; ESet (Message text);
         ESet (MessageType_ success); ESetTimeout 3000;
         ESet (Loading true); EFetch GET_rooms]
        (action (plain_endpoint request reply generic)
                (λ _, showMessage text success;; fetchRooms server)) w.
Proof.
  intros Hreply. apply emits_try.
  - apply (emits_bind_normal [ESet (Loading true)]
             [EFetch request; ESet (Message text);
              ESet (MessageType_ success); ESetTimeout 3000;
              ESet (Loading true); EFetch GET_rooms]
             _ _ _ () (after (setLoading true) w)); [done..|].
    eapply (emits_bind_normal [EFetch request]
             [ESet (Message text); ESet (MessageType_ success);
              ESetTimeout 3000; ESet (Loading true); EFetch GET_rooms]);
      [by apply run_plain_endpoint_ok|done|].
    eapply (emits_bind_normal
             [ESet (Message text); ESet (MessageType_ success);
              ESetTimeout 3000]
             [ESet (Loading true); EFetch GET_rooms]);
      [apply run_showMessage|done|].
    destruct (fetchRooms_emits server
                (after (showMessage text success)
                   (elapse (latency reply)
                      (record (EFetch request) (after (setLoading true) w)))))
      as [rest Hrest].
    exists rest. unfold after in *. by rewrite run_showMessage in Hrest.
  - intros. by apply (frame_showMessage log_frame).
  - intros. by apply (frame_set _ _ log_frame).
Qed.

(** The registry after such an action when the refetch succeeds too. *)
Lemma resolved_action_registry {A} request (reply : Reply A) generic text
    body registry w :
  outcome reply = Responded (Response_ok (Decoded body)) →
  outcome (rooms_reply server)
  = Responded (Response_ok (Decoded registry)) →
  let w' := after (action (plain_endpoint request reply generic)
                          (λ _, showMessage text success;;
                                fetchRooms server)) w in
  rooms (state w') = RoomStateResponse.rooms registry
  ∧ statistics (state w')
    = {| Statistics.total_rooms := RoomStateResponse.total_rooms registry;
         Statistics.available_rooms :=
           RoomStateResponse.available_rooms registry;
         Statistics.booked_rooms :=
           RoomStateResponse.booked_rooms registry |}
  ∧ loading (state w') = false.
Proof.
  intros Hreply Hrooms w'. subst w'.
  erewrite after_action_resolved;
    [|by apply run_plain_endpoint_ok
     |apply returns_bind;
        [apply returns_showMessage|intros; apply returns_fetchRooms]].
  erewrite (after_bind_normal (showMessage text success));
    [|apply run_showMessage].
  by rewrite (after_fetchRooms_ok _ _ _ Hrooms).
Qed.
End Resolved.

(** X7.  When the booking call succeeds but the refetch that follows is
    rejected, the error of the refetch replaces the success message: the
    action ends showing that error, with [rooms] and [statistics] as they
    were before the booking; the dialog is still opened when the response
    carries paths. *)
Theorem refetch_error_replaces_booking_message `{JsEngine}
    (server : Server) w num (response : BookingResponse.t) (exn : Error.t) :
  valid_input w num →
  outcome (book_reply server num None)
  = Responded (Response_ok (Decoded response)) →
  rejects (api.getRooms server) exn →
  let w' := after (handleBook server) w in
  message (state w') = Error.message exn
  ∧ messageType (state w') = error
  ∧ loading (state w') = false
  ∧ same_registry w w'
  ∧ (has_room_paths response = true →
       showPathDialog (state w') = true
       ∧ roomPaths (state w')
         = default [] (BookingResponse.room_paths response))
  ∧ (has_room_paths response = false → same_dialog w w').
Proof.
  intros Hvalid Hreply Hrej w'. subst w'.
  rewrite (handleBook_success_after _ _ _ _ Hvalid Hreply). cbv zeta.
  set (w2 := elapse _ _).
  set (w3 := after (showMessage (booking_message response) success) w2).
  destruct (failed_with_action (api.getRooms server)
              (λ response,
                 setRooms (RoomStateResponse.rooms response);;
                 setStatistics
                   {| Statistics.total_rooms :=
                        RoomStateResponse.total_rooms response;
                      Statistics.available_rooms :=
                        RoomStateResponse.available_rooms response;
                      Statistics.booked_rooms :=
                        RoomStateResponse.booked_rooms response |})
              GET_rooms (rooms_reply server) exn w3
              (after_getRooms server) Hrej)
    as (Hm & Ht & _ & [Hr Hs] & [Hd Hp] & _).
  change (after (action (api.getRooms server) _) w3)
    with (after (fetchRooms server) w3) in *.
  assert (Hreg3 : same_registry w w3).
  { subst w3 w2. unfold after. rewrite run_showMessage.
    apply (elapse_registry _
             (record (EFetch (POST_book num None))
                (after (setLoading true) w))). }
  assert (Hdia3 : same_dialog w w3).
  { subst w3 w2. unfold after. rewrite run_showMessage.
    apply (elapse_dialog _
             (record (EFetch (POST_book num None))
                (after (setLoading true) w))). }
  destruct Hreg3 as [Hr3 Hs3]. destruct Hdia3 as [Hd3 Hp3].
  repeat apply conj.
  - by destruct (has_room_paths response).
  - by destruct (has_room_paths response).
  - by destruct (has_room_paths response).
  - destruct (has_room_paths response); simpl; congruence.
  - destruct (has_room_paths response); simpl; congruence.
  - intros ->. split; reflexivity.
  - intros ->. split; simpl; congruence.
Qed.

(** X8.  When the reset call resolves, whatever its body says, the message
    shown is "All bookings have been reset" and the refetch follows; the
    random occupancy is always requested at 30 percent and its message is
    "Generated random occupancy (30%)".  When the refetch succeeds too, the
    action ends with the registry of the service and [loading] false. *)
Theorem reset_and_random_success `{JsEngine} (server : Server) w :
  (∀ body,
     outcome (reset_reply server) = Responded (Response_ok (Decoded body)) →
     emits [ESet (Loading true); EFetch POST_reset;
            ESet (Message "All bookings have been reset");
            ESet (MessageType_ success); ESetTimeout 3000;
            ESet (Loading true); EFetch GET_rooms]
           (handleReset server) w
     ∧ ∀ registry,
         outcome (rooms_reply server)
         = Responded (Response_ok (Decoded registry)) →
         rooms (state (after (handleReset server) w))
         = RoomStateResponse.rooms registry
         ∧ loading (state (after (handleReset server) w)) = false)
  ∧ (∀ body,
       outcome (random_occupancy_reply server 30)
       = Responded (Response_ok (Decoded body)) →
       emits [ESet (Loading true); EFetch (POST_random_occupancy 30);
              ESet (Message "Generated random occupancy (30%)");
              ESet (MessageType_ success); ESetTimeout 3000;
              ESet (Loading true); EFetch GET_rooms]
             (handleRandom server) w
       ∧ ∀ registry,
           outcome (rooms_reply server)
           = Responded (Response_ok (Decoded registry)) →
           rooms (state (after (handleRandom server) w))
           = RoomStateResponse.rooms registry
           ∧ loading (state (after (handleRandom server) w)) = false).
Proof.
  split.
  - intros body Hreply. split.
    + by apply (resolved_action_emits server POST_reset (reset_reply server)
                  "Failed to reset bookings"
                  "All bookings have been reset" body).
    + intros registry Hrooms.
      destruct (resolved_action_registry server POST_reset
                  (reset_reply server) "Failed to reset bookings"
                  "All bookings have been reset" body registry w
                  Hreply Hrooms) as (Hr & _ & Hl).
      by split.
  - intros body Hreply. split.
    + by apply (resolved_action_emits server (POST_random_occupancy 30)
                  (random_occupancy_reply server 30)
                  "Failed to generate random occupancy"
                  "Generated random occupancy (30%)" body).
    + intros registry Hrooms.
      destruct (resolved_action_registry server (POST_random_occupancy 30)
                  (random_occupancy_reply server 30)
                  "Failed to generate random occupancy"
                  "Generated random occupancy (30%)" body registry w
                  Hreply Hrooms) as (Hr & _ & Hl).
      by split.
Qed.

(** X9.  [handleBook] reads only [message], [total_travel_time] and
    [room_paths] of the booking response: two responses that agree on these
    three fields lead to the same world, whatever their [success] flag and
    their [booked_rooms] say. *)
Theorem handleBook_ignores_success_flag `{JsEngine}
    (server1 server2 : Server) w num (r1 r2 : BookingResponse.t) :
  valid_input w num →
  outcome (book_reply server1 num None)
  = Responded (Response_ok (Decoded r1)) →
  outcome (book_reply server2 num None)
  = Responded (Response_ok (Decoded r2)) →
  latency (book_reply server1 num None)
  = latency (book_reply server2 num None) →
  rooms_reply server1 = rooms_reply server2 →
  BookingResponse.message r1 = BookingResponse.message r2 →
  BookingResponse.total_travel_time r1 = BookingResponse.total_travel_time r2 →
  BookingResponse.room_paths r1 = BookingResponse.room_paths r2 →
  after (handleBook server1) w = after (handleBook server2) w.
Proof.
  intros Hvalid H1 H2 Hlat Hrooms Hmsg Htime Hpaths.
  rewrite (handleBook_success_after _ _ _ _ Hvalid H1).
  rewrite (handleBook_success_after _ _ _ _ Hvalid H2). cbv zeta.
  assert (Hfetch : fetchRooms server1 = fetchRooms server2).
  { unfold fetchRooms, api.getRooms. by rewrite Hrooms. }
  assert (Htext : booking_message r1 = booking_message r2).
  { unfold booking_message. by rewrite Hmsg, Htime. }
  assert (Hhas : has_room_paths r1 = has_room_paths r2).
  { unfold has_room_paths. by rewrite Hpaths. }
  by rewrite Hlat, Hfetch, Htext, Hhas, Hpaths.
Qed.

(** ** The input cell *)

Section InputFraming.
Context `{JsEngine} {allowed : Update → Prop} {R : relation World}.
Context (F : Frame allowed R).
Context (Hallowed : ∀ u, is_input_update u = false → allowed u).

Lemma frame_showMessage_but_input msg type w :
  R w (after (showMessage msg type) w).
Proof.
  apply (frame_bind F); [by apply (frame_set _ _ F), Hallowed|].
  intros _ w1 _.
  apply (frame_bind F); [by apply (frame_set _ _ F), Hallowed|].
  intros _ w2 _. apply (frame_setTimeout _ _ F).
Qed.

Lemma frame_action_but_input {A} (call : M A) (k : A → M unit) w :
  (∀ w0, R w0 (after call w0)) →
  (∀ r w0, R w0 (after (k r) w0)) →
  R w (after (action call k) w).
Proof.
  intros Hcall Hk. apply (frame_try F).
  - apply (frame_bind F); [by apply (frame_set _ _ F), Hallowed|].
    intros _ w1 _. apply (frame_bind F); [apply Hcall|].
    intros r w2 _. apply Hk.
  - intros. apply frame_showMessage_but_input.
  - intros. by apply (frame_set _ _ F), Hallowed.
Qed.

Lemma frame_fetchRooms_but_input server w :
  R w (after (fetchRooms server) w).
Proof.
  apply (frame_action_but_input (api.getRooms server)).
  - intros w0. apply (frame_getRooms F).
  - intros r w0.
    apply (frame_bind F); by intros; apply (frame_set _ _ F), Hallowed.
Qed.

Lemma frame_handleReset_but_input server w :
  R w (after (handleReset server) w).
Proof.
  apply (frame_action_but_input (api.resetBookings server)).
  - intros w0. apply (frame_resetBookings F).
  - intros r w0.
    apply (frame_bind F); [apply frame_showMessage_but_input|].
    intros. apply frame_fetchRooms_but_input.
Qed.

Lemma frame_handleRandom_but_input server w :
  R w (after (handleRandom server) w).
Proof.
  apply (frame_action_but_input (api.generateRandomOccupancy server 30)).
  - intros w0. apply (frame_generateRandomOccupancy F).
  - intros r w0.
    apply (frame_bind F); [apply frame_showMessage_but_input|].
    intros. apply frame_fetchRooms_but_input.
Qed.

Lemma frame_handleBook_but_input server w :
  R w (after (handleBook server) w).
Proof.
  unfold handleBook.
  apply (frame_bind F); [apply (frame_refl _ _ F)|].
  intros input w1 _.
  destruct (parseInt input) as [num|];
    [|apply frame_showMessage_but_input].
  destruct ((num <? 1) || (num >? 5));
    [apply frame_showMessage_but_input|].
  apply (frame_action_but_input (api.bookRooms server num None)).
  - intros w0. apply (frame_bookRooms F).
  - intros response w0.
    apply (frame_bind F); [apply frame_showMessage_but_input|].
    intros _ w2 _.
    apply (frame_bind F); [apply frame_fetchRooms_but_input|].
    intros _ w3 _.
    destruct (has_room_paths response); [|apply (frame_refl _ _ F)].
    apply (frame_bind F); by intros; apply (frame_set _ _ F), Hallowed.
Qed.
End InputFraming.

(** X10.  No action changes the input: after a booking, successful or
    not, after a reset, a random occupancy, a refetch, the mount effect,
    the closing of the dialog and any lapse of time, [numRooms] still holds
    what the user typed. *)
Theorem input_is_never_changed `{JsEngine} (server : Server) w :
  same_input w (after (handleBook server) w)
  ∧ same_input w (after (handleReset server) w)
  ∧ same_input w (after (handleRandom server) w)
  ∧ same_input w (after (fetchRooms server) w)
  ∧ same_input w (after (mount server) w)
  ∧ same_input w (after dismissDialog w)
  ∧ ∀ d, same_input w (elapse d w).
Proof.
  repeat apply conj.
  - by apply (frame_handleBook_but_input input_frame).
  - by apply (frame_handleReset_but_input input_frame).
  - by apply (frame_handleRandom_but_input input_frame).
  - by apply (frame_fetchRooms_but_input input_frame).
  - apply (frame_bind input_frame);
      [by apply (frame_set _ _ input_frame)|].
    intros. by apply (frame_fetchRooms_but_input input_frame).
  - by apply (frame_set _ _ input_frame).
  - intros d. apply elapse_input.
Qed.

(** ** The banner *)

(** X11.  A message is on display for 3000 ms.  Shown while no older timer
    is about to fall due, a non-empty text is rendered as a banner of its
    type at every moment before 3000 ms have passed; from 3000 ms on no
    banner is rendered, while [messageType] keeps its value.  An empty text
    renders no banner at all. *)
Theorem banner_lasts_3000ms `{JsEngine} w (msg : string) (type : MessageType)
    (d : N) :
  let shown := after (showMessage msg type) w in
  (msg ≠ ""%string → (d < 3000)%N → quiet d w →
     message_banner (state (elapse d shown))
     = Some ("message "
               +:+ match type with
                   | success => "success"
                   | error => "error"
                   end, msg))
  ∧ ((3000 ≤ d)%N →
       message_banner (state (elapse d shown)) = None
       ∧ messageType (state (elapse d shown)) = type)
  ∧ (msg = ""%string → message_banner (state shown) = None).
Proof.
  intros shown. subst shown. unfold after. rewrite run_showMessage.
  repeat apply conj.
  - intros Hmsg Hd Hquiet. rewrite elapse_quiet.
    + unfold message_banner. simpl. by rewrite bool_decide_eq_false_2.
    + unfold quiet in *. simpl. apply Forall_app. split.
      * eapply Forall_impl; [exact Hquiet|]. simpl. intros; lia.
      * repeat constructor. lia.
  - intros Hd. split; [|by rewrite elapse_messageType].
    unfold message_banner.
    erewrite (elapse_due _ _ (now w + 3000)%N);
      [by rewrite bool_decide_eq_true_2| |simpl; lia].
    simpl. apply elem_of_app. right. by left.
  - by intros ->.
Qed.

(** ** The grid *)

Section Grid.
Context {A : Type}.

Lemma filter_or_Permutation (P Q : A → Prop)
    `{!∀ x, Decision (P x)} `{!∀ x, Decision (Q x)} (l : list A) :
  (∀ x, P x → Q x → False) →
  filter (λ x, P x ∨ Q x) l ≡ₚ filter P l ++ filter Q l.
Proof.
  intros Hdisjoint. induction l as [|x l IH]; [done|].
  rewrite !filter_cons.
  destruct (decide (P x)) as [HP|HP], (decide (Q x)) as [HQ|HQ].
  - by destruct (Hdisjoint x).
  - rewrite decide_True by auto. simpl. by f_equiv.
  - rewrite decide_True by auto. rewrite IH. apply Permutation_middle.
  - rewrite decide_False by tauto. exact IH.
Qed.

Lemma filter_none (P : A → Prop) `{!∀ x, Decision (P x)} (l : list A) :
  (∀ x, ¬ P x) → filter P l = [].
Proof.
  intros Hnone. induction l as [|x l IH]; [done|].
  by rewrite filter_cons_False.
Qed.

(** Splitting a list by the values of a key, one bucket per value. *)
Lemma buckets_Permutation (key : A → Z) (ks : list Z) (l : list A) :
  NoDup ks →
  mjoin ((λ k, filter (λ x, key x = k) l) <$> ks)
  ≡ₚ filter (λ x, key x ∈ ks) l.
Proof.
  induction 1 as [|k ks Hk _ IH]; simpl.
  - rewrite filter_none; [done|]. intros x. apply not_elem_of_nil.
  - rewrite IH.
    rewrite <- (filter_or_Permutation (λ x, key x = k) (λ x, key x ∈ ks)).
    + apply reflexive_eq, list_filter_iff. intros x.
      rewrite elem_of_cons. tauto.
    + intros x -> Hin. by destruct Hk.
Qed.


End Grid.

Lemma getRoomsForFloor_Permutation (rooms : gmap Z RoomData) (fl : Z) :
  getRoomsForFloor rooms fl
  ≡ₚ filter (λ room, floor room = fl) (map_to_list rooms).*2.
Proof.
  unfold getRoomsForFloor. rewrite (Array_sort_Permutation position).
  by rewrite Object_values_Permutation.
Qed.

(** The fillers of a row. *)
Lemma floor_row_split (rooms : gmap Z RoomData) (fl : Z) :
  floor_row rooms fl
  = (renderRoom <$> getRoomsForFloor rooms fl)
    ++ (if decide (fl = 10)
        then [EmptyCell "empty-0"; EmptyCell "empty-1"; EmptyCell "empty-2"]
        else []).
Proof. unfold floor_row. by destruct (decide (fl = 10)). Qed.

Lemma grid_rows_Permutation (rooms : gmap Z RoomData) (fls : list Z) :
  mjoin (floor_row rooms <$> fls)
  ≡ₚ (renderRoom
        <$> mjoin ((λ fl, filter (λ room, floor room = fl)
                                 (map_to_list rooms).*2) <$> fls))
     ++ mjoin ((λ fl : Z,
                  if decide (fl = 10)
                  then [EmptyCell "empty-0"; EmptyCell "empty-1";
                        EmptyCell "empty-2"]
                  else []) <$> fls).
Proof.
  induction fls as [|fl fls IH]; [done|]. simpl.
  rewrite IH, floor_row_split, getRoomsForFloor_Permutation, fmap_app.
  rewrite <- !app_assoc. f_equiv. apply Permutation_app_swap_app.
Qed.

(** X12.  The grid has one row per floor from 10 down to 1.  Taken
    together, its rows hold one cell for each room of the registry whose
    [floor] is between 1 and 10, and the three fillers of floor 10; a room
    whose [floor] is outside 1..10 gets no cell. *)
Theorem grid_shows_floors_1_to_10 (rooms : gmap Z RoomData) :
  (rooms_grid rooms).*1 = [10; 9; 8; 7; 6; 5; 4; 3; 2; 1]
  ∧ mjoin (rooms_grid rooms).*2
    ≡ₚ (renderRoom
          <$> filter (λ room, 1 ≤ floor room ≤ 10) (map_to_list rooms).*2)
       ++ [EmptyCell "empty-0"; EmptyCell "empty-1"; EmptyCell "empty-2"].
Proof.
  split; [done|].
  change ((rooms_grid rooms).*2)
    with (floor_row rooms <$> [10; 9; 8; 7; 6; 5; 4; 3; 2; 1]).
  rewrite grid_rows_Permutation. apply Permutation_app; [|done].
  rewrite (buckets_Permutation floor).
  - apply reflexive_eq. f_equal. apply list_filter_iff. intros room.
    rewrite !elem_of_cons, elem_of_nil. lia.
  - apply (bool_decide_unpack _). by vm_compute.
Qed.


(** ** The detail of a refused booking *)

Lemma bookRooms_rejects_with_detail `{JsEngine}
    (server : Server) num guest (body : JsValue number) :
  outcome (book_reply server num guest)
  = Responded (Response_not_ok (Decoded body)) →
  body ≠ JsNull →
  rejects (api.bookRooms server num guest)
          (Error.new (detail_or body "Failed to book rooms")).
Proof.
  intros Hreply Hnull w. unfold api.bookRooms. rewrite run_bind.
  unfold run at 2, fetch. rewrite Hreply. by destruct body.
Qed.

(** X14.  When the service refuses a booking with an error status and a
    body whose [detail] is a non-empty string, that string is what the
    user sees: it is the text of the error banner when the action
    completes, and nothing else has changed. *)
Theorem booking_detail_reaches_the_banner `{JsEngine}
    (server : Server) w num (body : JsValue number) (text : string) :
  valid_input w num →
  outcome (book_reply server num None)
  = Responded (Response_not_ok (Decoded body)) →
  get_property body "detail" = Some (JsString text) →
  text ≠ ""%string →
  message_banner (state (after (handleBook server) w))
  = Some ("message error"%string, text)
  ∧ failed_with (POST_book num None) (Error.new text) w
                (after (handleBook server) w).
Proof.
  intros Hvalid Hreply Hdetail Htext.
  assert (Hnull : body ≠ JsNull) by (by intros ->).
  pose proof (bookRooms_rejects_with_detail _ _ _ _ Hreply Hnull) as Hrej.
  assert (Hdetail_or : detail_or body "Failed to book rooms" = text).
  { unfold detail_or. rewrite Hdetail. simpl.
    by rewrite bool_decide_eq_false_2. }
  rewrite Hdetail_or in Hrej.
  assert (Hfailed : failed_with (POST_book num None) (Error.new text) w
                      (after (handleBook server) w)).
  { unfold after at 1. rewrite (handleBook_valid _ _ _ Hvalid).
    apply (failed_with_action (api.bookRooms server num None) _
             (POST_book num None) (book_reply server num None)); [|done].
    intros w0. apply after_bookRooms. }
  split; [|done].
  destruct Hfailed as (Hm & Ht & _). unfold message_banner.
  rewrite Hm, Ht. simpl. by rewrite bool_decide_eq_false_2.
Qed.


(** ** The further statements at work *)

Section MoreExamples.
Local Existing Instance integer_engine.

(** Rooms that share a position keep the order of their keys, and the room
    of floor 11 is in no row. *)
Example crowded_floor_1 :
  room_number <$> getRoomsForFloor crowded_rooms 1 = [101; 103; 107]
  ∧ length (mjoin (rooms_grid crowded_rooms).*2) = 6%nat.
Proof. split; by vm_compute. Qed.

Lemma handleBook_reads_numeral_witness :
  numRooms (state (with_input "2.5" initial_world))
  = (""%string +:+ pretty 2 +:+ ".5"%string)
  ∧ parseInt "2.5" = Some 2
  ∧ sent (POST_book 2 None) (with_input "2.5" initial_world)
         (after (handleBook sample_server) (with_input "2.5" initial_world)).
Proof.
  assert (Htail : ends_numeral 2 ".5").
  { split; [reflexivity|]. intros Hz. discriminate Hz. }
  destruct (handleBook_reads_numeral sample_server
              (with_input "2.5" initial_world) 2 "" ".5"
              eq_refl eq_refl Htail) as (Hparse & Hsent & _).
  split; [reflexivity|]. split; [exact Hparse|].
  apply Hsent. lia.
Defined.


Lemma fetchRooms_replaces_registry_witness :
  outcome (rooms_reply sample_server)
  = Responded (Response_ok (Decoded sample_rooms))
  ∧ rooms (state initial_world) = ∅
  ∧ rooms (state (after (fetchRooms sample_server) initial_world)) = roomsMap
  ∧ loading (state (after (fetchRooms sample_server) initial_world)) = false.
Proof.
  destruct (fetchRooms_replaces_registry sample_server sample_rooms
              initial_world eq_refl) as (Hrooms & _ & Hloading & _).
  split; [reflexivity|]. split; [reflexivity|].
  split; [exact Hrooms|exact Hloading].
Defined.

Lemma refused_rooms :
  rejects (api.getRooms (failing_server empty_detail))
          (Error.new "Failed to fetch rooms").
Proof. intros w. reflexivity. Defined.

Lemma fetchRooms_rejected_keeps_registry_witness :
  rejects (api.getRooms (failing_server empty_detail))
          (Error.new "Failed to fetch rooms")
  ∧ failed_with GET_rooms (Error.new "Failed to fetch rooms") initial_world
      (after (fetchRooms (failing_server empty_detail)) initial_world).
Proof.
  split; [exact refused_rooms|].
  apply (fetchRooms_rejected_keeps_registry (failing_server empty_detail)
           (Error.new "Failed to fetch rooms") initial_world refused_rooms).
Defined.

Lemma mount_installs_then_fetches_witness :
  size (rooms (state (after (mount (failing_server empty_detail))
                            initial_world))) = 97%nat
  ∧ message (state (after (mount (failing_server empty_detail))
                          initial_world))
    = "Failed to fetch rooms"%string
  ∧ rooms (state (after (mount sample_server) initial_world))
    = RoomStateResponse.rooms sample_rooms.
Proof.
  destruct (mount_installs_then_fetches (failing_server empty_detail)
              initial_world) as [_ Hfail].
  destruct (Hfail (Error.new "Failed to fetch rooms") refused_rooms)
    as (Hrooms & _ & Hmessage & _).
  destruct (mount_installs_then_fetches sample_server initial_world)
    as [Hok _].
  destruct (Hok sample_rooms eq_refl) as [Hfetched _].
  split; [by rewrite Hrooms|]. split; [exact Hmessage|exact Hfetched].
Defined.

Lemma refused_reset :
  rejects (api.resetBookings (failing_server empty_detail))
          (Error.new "Failed to reset bookings").
Proof. intros w. reflexivity. Defined.

Lemma rejected_action_only_shows_the_error_witness :
  rejects (api.resetBookings (failing_server empty_detail))
          (Error.new "Failed to reset bookings")
  ∧ failed_with POST_reset (Error.new "Failed to reset bookings")
      initial_world
      (after (handleReset (failing_server empty_detail)) initial_world).
Proof.
  split; [exact refused_reset|].
  destruct (rejected_action_only_shows_the_error
              (failing_server empty_detail) initial_world) as (Hreset & _).
  apply Hreset, refused_reset.
Defined.

Lemma refused_stale_rooms :
  rejects (api.getRooms stale_server) (Error.new "Failed to fetch rooms").
Proof. intros w. reflexivity. Defined.

Lemma refetch_error_replaces_booking_message_witness :
  message (state (after (handleBook stale_server)
                        (with_input "2" initial_world)))
  = "Failed to fetch rooms"%string
  ∧ messageType (state (after (handleBook stale_server)
                              (with_input "2" initial_world))) = error
  ∧ showPathDialog (state (after (handleBook stale_server)
                                 (with_input "2" initial_world))) = true.
Proof.
  destruct (refetch_error_replaces_booking_message stale_server
              (with_input "2" initial_world) 2 sample_booking
              (Error.new "Failed to fetch rooms")
              valid_input_2 eq_refl refused_stale_rooms)
    as (Hmessage & Htype & _ & _ & Hopen & _).
  split; [exact Hmessage|]. split; [exact Htype|].
  apply Hopen. reflexivity.
Defined.

Lemma reset_and_random_success_witness :
  emits [ESet (Loading true); EFetch POST_reset;
         ESet (Message "All bookings have been reset");
         ESet (MessageType_ success); ESetTimeout 3000;
         ESet (Loading true); EFetch GET_rooms]
        (handleReset sample_server) initial_world
  ∧ rooms (state (after (handleRandom sample_server) initial_world))
    = roomsMap.
Proof.
  destruct (reset_and_random_success sample_server initial_world)
    as [Hreset Hrandom].
  destruct (Hreset _ eq_refl) as [Hemits _].
  destruct (Hrandom _ eq_refl) as [_ Hregistry].
  destruct (Hregistry sample_rooms eq_refl) as [Hrooms _].
  split; [exact Hemits|exact Hrooms].
Defined.

Lemma handleBook_ignores_success_flag_witness :
  BookingResponse.success sample_booking = true
  ∧ BookingResponse.success flagged_booking = false
  ∧ after (handleBook sample_server) (with_input "2" initial_world)
    = after (handleBook flagged_server) (with_input "2" initial_world).
Proof.
  split; [reflexivity|]. split; [reflexivity|].
  apply (handleBook_ignores_success_flag sample_server flagged_server
           (with_input "2" initial_world) 2 sample_booking flagged_booking
           valid_input_2 eq_refl eq_refl eq_refl eq_refl eq_refl eq_refl
           eq_refl).
Defined.

Lemma banner_lasts_3000ms_witness :
  message_banner
    (state (elapse 2999 (after (showMessage "Done" success) initial_world)))
  = Some ("message success"%string, "Done"%string)
  ∧ message_banner
      (state (elapse 3000 (after (showMessage "Done" success) initial_world)))
    = None.
Proof.
  destruct (banner_lasts_3000ms initial_world "Done" success 2999)
    as (Hbefore & _).
  destruct (banner_lasts_3000ms initial_world "Done" success 3000)
    as (_ & Hafter & _).
  split.
  - apply Hbefore; [discriminate|reflexivity|constructor].
  - apply Hafter. discriminate.
Defined.

Lemma booking_detail_reaches_the_banner_witness :
  get_property detail_body "detail"
  = Some (JsString "Not enough rooms available")
  ∧ message_banner
      (state (after (handleBook (failing_server detail_body))
                    (with_input "2" initial_world)))
    = Some ("message error"%string, "Not enough rooms available"%string).
Proof.
  split; [reflexivity|].
  destruct (booking_detail_reaches_the_banner (failing_server detail_body)
              (with_input "2" initial_world) 2 detail_body
              "Not enough rooms available"
              valid_input_2 eq_refl eq_refl ltac:(discriminate))
    as [Hbanner _].
  exact Hbanner.
Defined.
End MoreExamples.
